(** * gogrep: the per-file scan worker (cmd/gogrep/worker.go)

    A shallow embedding of [worker.grepFile] and of the functions it drives
    ([parseFile], [Visit], [initMatchCapture], [initMatchText], [nodeText],
    [isAutogenFile], [isAutogenComment]), followed by the properties the
    specification states about them.

    Conventions of the embedding.
    - Go's [int] and [token.Pos] are [Z]; offsets and counts here are bounded
      by the size of a file held in memory, so no 64-bit wrap-around occurs
      and none is written.
    - [[]byte] is [list byte], a Go [string] is [string]; [string(b)] is
      [string_of_list_byte].  A byte slice is taken with capacity equal to
      its length.
    - A run-time panic (index or slice out of range, [panic(err)]) is the
      [Panic] outcome of [result]; nothing in worker.go recovers from one.
    - The worker is a mutable struct behind a pointer: functions take the
      worker and give the updated worker back.  The file system and the
      calls made to the filter evaluator are observable effects and live in
      [World].
    - The pattern matcher, the filter evaluator, the Go parser and printer
      and [strings.ToLower] are collaborators outside worker.go; they are
      fields of [Env], and every theorem holds for all of them.  [Demo] is
      one concrete [Env], on which the functions run. *)

From Stdlib Require Import ZArith Lia Bool.
From Stdlib Require Import Strings.String Strings.Ascii Strings.Byte.
From stdpp Require Import base decidable option list numbers strings gmap.

Local Open Scope Z_scope.

(** ** Outcomes: a value or a panic *)

Inductive result (A : Type) : Type :=
| Ok (a : A)
| Panic (msg : string).
Arguments Ok {A} a.
Arguments Panic {A} msg.

#[global] Instance result_ret : MRet result := fun A a => Ok a.
#[global] Instance result_bind : MBind result := fun A B f r =>
  match r with
  | Ok a => f a
  | Panic msg => Panic msg
  end.

Definition is_Ok {A} (r : result A) : Prop :=
  match r with Ok _ => True | Panic _ => False end.

(** ** Go primitives used by worker.go *)

Definition len {A} (s : list A) : Z := Z.of_nat (length s).

(** [s[i]] on a byte slice: panics outside [0, len(s)). *)
Definition index (s : list byte) (i : Z) : result byte :=
  if (0 <=? i) && (i <? len s) then
    match s !! Z.to_nat i with
    | Some b => Ok b
    | None => Panic "index out of range"
    end
  else Panic "index out of range".

(** [s[lo:hi]] on a byte slice: panics unless [0 <= lo <= hi <= len(s)]. *)
Definition slice (s : list byte) (lo hi : Z) : result (list byte) :=
  if (0 <=? lo) && (lo <=? hi) && (hi <=? len s) then
    Ok (take (Z.to_nat (hi - lo)) (drop (Z.to_nat lo) s))
  else Panic "slice bounds out of range".

(** strings.HasPrefix, strings.Contains, strings.HasSuffix: byte-wise. *)
Fixpoint strings_HasPrefix (s prefix : string) : bool :=
  match prefix, s with
  | EmptyString, _ => true
  | String _ _, EmptyString => false
  | String a p, String b s' => Ascii.eqb a b && strings_HasPrefix s' p
  end.

Fixpoint strings_Contains (s substr : string) : bool :=
  strings_HasPrefix s substr ||
  match s with
  | EmptyString => false
  | String _ s' => strings_Contains s' substr
  end.

Definition strings_HasSuffix (s suffix : string) : bool :=
  (String.length suffix <=? String.length s)%nat &&
  String.eqb
    (substring (String.length s - String.length suffix) (String.length suffix) s)
    suffix.

(** path/filepath.Base with the Unix separator: trailing slashes are
    stripped, the last element is kept, an empty path is ".", a path of
    slashes only is "/". *)
Definition isPathSeparator (c : ascii) : bool := Ascii.eqb c "/"%char.

Fixpoint stripLeadingSeparators (l : list ascii) : list ascii :=
  match l with
  | c :: l' => if isPathSeparator c then stripLeadingSeparators l' else l
  | [] => []
  end.

Fixpoint takeLastElement (l : list ascii) : list ascii :=
  match l with
  | c :: l' => if isPathSeparator c then [] else c :: takeLastElement l'
  | [] => []
  end.

Definition filepath_Base (path : string) : string :=
  if String.eqb path EmptyString then "."%string
  else
    let rpath := stripLeadingSeparators (rev (list_ascii_of_string path)) in
    let last := string_of_list_ascii (rev (takeLastElement rpath)) in
    if String.eqb last EmptyString then "/"%string else last.

(** ** go/token: positions and the position table *)

Definition NoPos : Z := 0.

Record Position := {
  Line : Z;
  Offset : Z
}.

Definition zeroPosition : Position := {| Line := 0; Offset := 0 |}.

Record tokenFile := {
  tf_name : string;
  tf_base : Z;
  tf_size : Z;
  tf_lines : list Z
}.

Record FileSet := {
  fs_base : Z;
  fs_files : list tokenFile
}.

Definition NewFileSet : FileSet := {| fs_base := 1; fs_files := [] |}.

Definition FileSet_AddFile (s : FileSet) (name : string) (size : Z)
    (lines : list Z) : FileSet :=
  {| fs_base := fs_base s + size + 1;
     fs_files := fs_files s ++
       [ {| tf_name := name; tf_base := fs_base s; tf_size := size;
            tf_lines := lines |} ] |}.

Definition tokenFile_holds (p : Z) (f : tokenFile) : bool :=
  (tf_base f <=? p) && (p <=? tf_base f + tf_size f).

Definition FileSet_file (s : FileSet) (p : Z) : option tokenFile :=
  find (tokenFile_holds p) (fs_files s).

(** The line of an offset: one more than the index of the last line start
    not after it ([searchInts] on the sorted table of line starts). *)
Definition tokenFile_line (f : tokenFile) (offset : Z) : Z :=
  len (filter (fun l => l <= offset) (tf_lines f)).

(** [FileSet.Position]: the zero position for [NoPos] and for a position
    that no file of the set holds.  (A line directive in the source can
    adjust the line it reports, never the offset; directives are left
    out.) *)
Definition FileSet_Position (s : FileSet) (p : Z) : Position :=
  if p =? NoPos then zeroPosition
  else
    match FileSet_file s p with
    | Some f => {| Line := tokenFile_line f (p - tf_base f);
                   Offset := p - tf_base f |}
    | None => zeroPosition
    end.

(** The line starts the scanner records while it reads [src]: offset 0 and
    the offset after every line feed, as long as it is below the size. *)
Fixpoint lineStartsFrom (off : Z) (src : list byte) : list Z :=
  match src with
  | [] => []
  | b :: rest =>
      if Byte.eqb b x0a then (off + 1) :: lineStartsFrom (off + 1) rest
      else lineStartsFrom (off + 1) rest
  end.

Definition lineStarts (src : list byte) : list Z :=
  0 :: filter (fun l => l < len src) (lineStartsFrom 0 src).

(** ** go/ast, as far as the worker looks into it *)

Record Comment := {
  Slash : Z;
  Text : string
}.

Record CommentGroup := {
  List : list Comment
}.

(** A syntax node: gogrep's empty node slice, a comment, or any other node
    with its extent and its children. *)
#[warnings="-register-all"]
Inductive Node : Type :=
| EmptyNodeSlice
| CommentNode (c : Comment)
| SyntaxNode (pos end_ : Z) (children : list Node).

Definition Node_Pos (n : Node) : Z :=
  match n with
  | EmptyNodeSlice => NoPos
  | CommentNode c => Slash c
  | SyntaxNode p _ _ => p
  end.

Definition Node_End (n : Node) : Z :=
  match n with
  | EmptyNodeSlice => NoPos
  | CommentNode c => Slash c + Z.of_nat (String.length (Text c))
  | SyntaxNode _ e _ => e
  end.

Definition IsEmptyNodeSlice (n : Node) : bool :=
  match n with EmptyNodeSlice => true | _ => false end.

Record File := {
  Package : Z;
  Name : string;
  Decls : list Node;
  FileEnd : Z;
  Comments : list CommentGroup
}.

Definition File_node (f : File) : Node :=
  SyntaxNode (Package f) (FileEnd f) (Decls f).

(** ** Collaborators outside worker.go *)

(** The opaque types of the collaborators: the compiled pattern and its
    matcher state (package gogrep), the heat map index, the filter
    metadata and the filter expression with its operation tag (package
    filters).  [OpNop] is the distinguished no-op operation. *)
Class Externals := {
  Pattern : Type;
  MatcherState : Type;
  HeatmapIndex : Type;
  FilterInfo : Type;
  FilterExpr : Type;
  Operation : Type;
  Operation_eq_dec :: EqDecision Operation;
  Op : FilterExpr -> Operation;
  OpNop : Operation
}.

(** gogrep.CapturedNode and gogrep.MatchData. *)
Module gogrep.
Record CapturedNode := {
  cn_Name : string;
  cn_Node : Node
}.
Record MatchData := {
  md_Node : Node;
  md_Capture : list CapturedNode
}.
End gogrep.

(** Modelled from the spec: the tri-state [bool3] of the filter hints
    (declared outside worker.go): unset, or a required [true] or [false];
    [Eq v] holds when the required value is [v]. *)
Inductive bool3 : Type := bool3unset | bool3false | bool3true.

#[global] Instance bool3_eq_dec : EqDecision bool3.
Proof. solve_decision. Defined.

Definition bool3_Eq (b : bool3) (v : bool) : bool :=
  if v then bool_decide (b = bool3true) else bool_decide (b = bool3false).

Record filterHints := {
  testCond : bool3;
  autogenCond : bool3
}.

(** The records the worker fills in: [capturedNode] and [match]. *)
Module capturedNode.
Record t := {
  startOffset : Z;
  endOffset : Z;
  data : gogrep.CapturedNode
}.
End capturedNode.

Module Match.
Record t := {
  filename : string;
  line : Z;
  startOffset : Z;
  endOffset : Z;
  capture : list capturedNode.t;
  text : string;
  matchStartOffset : Z;
  matchLength : Z
}.
End Match.

(** ** The worker *)

Module worker.
Section Worker.
Context `{Externals}.

Record t := {
  id : Z;
  countMode : bool;
  needCapture : bool;
  needMatchLine : bool;
  workDir : string;
  heatmapFilenameSet : option (gset string);
  heatmap : option HeatmapIndex;
  filterHints : filterHints;
  filterInfo : option FilterInfo;
  filterExpr : FilterExpr;
  m : Pattern;
  gogrepState : MatcherState;
  fset : FileSet;
  matches : list Match.t;
  errors : list string;
  data : list byte;
  filename : string;
  pkgName : string;
  typeName : string;
  funcName : string;
  closureID : Z;
  n : Z
}.

(** Assignments to single fields. *)
Definition set_countMode (w : t) (v : bool) : t :=
  {| id := id w; countMode := v; needCapture := needCapture w;
     needMatchLine := needMatchLine w; workDir := workDir w;
     heatmapFilenameSet := heatmapFilenameSet w; heatmap := heatmap w;
     filterHints := filterHints w; filterInfo := filterInfo w;
     filterExpr := filterExpr w; m := m w; gogrepState := gogrepState w;
     fset := fset w; matches := matches w; errors := errors w;
     data := data w; filename := filename w; pkgName := pkgName w;
     typeName := typeName w; funcName := funcName w;
     closureID := closureID w; n := n w |}.

Definition set_filterExpr (w : t) (v : FilterExpr) : t :=
  {| id := id w; countMode := countMode w; needCapture := needCapture w;
     needMatchLine := needMatchLine w; workDir := workDir w;
     heatmapFilenameSet := heatmapFilenameSet w; heatmap := heatmap w;
     filterHints := filterHints w; filterInfo := filterInfo w;
     filterExpr := v; m := m w; gogrepState := gogrepState w;
     fset := fset w; matches := matches w; errors := errors w;
     data := data w; filename := filename w; pkgName := pkgName w;
     typeName := typeName w; funcName := funcName w;
     closureID := closureID w; n := n w |}.

Definition set_gogrepState (w : t) (v : MatcherState) : t :=
  {| id := id w; countMode := countMode w; needCapture := needCapture w;
     needMatchLine := needMatchLine w; workDir := workDir w;
     heatmapFilenameSet := heatmapFilenameSet w; heatmap := heatmap w;
     filterHints := filterHints w; filterInfo := filterInfo w;
     filterExpr := filterExpr w; m := m w; gogrepState := v;
     fset := fset w; matches := matches w; errors := errors w;
     data := data w; filename := filename w; pkgName := pkgName w;
     typeName := typeName w; funcName := funcName w;
     closureID := closureID w; n := n w |}.

Definition set_fset (w : t) (v : FileSet) : t :=
  {| id := id w; countMode := countMode w; needCapture := needCapture w;
     needMatchLine := needMatchLine w; workDir := workDir w;
     heatmapFilenameSet := heatmapFilenameSet w; heatmap := heatmap w;
     filterHints := filterHints w; filterInfo := filterInfo w;
     filterExpr := filterExpr w; m := m w; gogrepState := gogrepState w;
     fset := v; matches := matches w; errors := errors w;
     data := data w; filename := filename w; pkgName := pkgName w;
     typeName := typeName w; funcName := funcName w;
     closureID := closureID w; n := n w |}.

Definition set_matches (w : t) (v : list Match.t) : t :=
  {| id := id w; countMode := countMode w; needCapture := needCapture w;
     needMatchLine := needMatchLine w; workDir := workDir w;
     heatmapFilenameSet := heatmapFilenameSet w; heatmap := heatmap w;
     filterHints := filterHints w; filterInfo := filterInfo w;
     filterExpr := filterExpr w; m := m w; gogrepState := gogrepState w;
     fset := fset w; matches := v; errors := errors w;
     data := data w; filename := filename w; pkgName := pkgName w;
     typeName := typeName w; funcName := funcName w;
     closureID := closureID w; n := n w |}.

Definition set_data (w : t) (v : list byte) : t :=
  {| id := id w; countMode := countMode w; needCapture := needCapture w;
     needMatchLine := needMatchLine w; workDir := workDir w;
     heatmapFilenameSet := heatmapFilenameSet w; heatmap := heatmap w;
     filterHints := filterHints w; filterInfo := filterInfo w;
     filterExpr := filterExpr w; m := m w; gogrepState := gogrepState w;
     fset := fset w; matches := matches w; errors := errors w;
     data := v; filename := filename w; pkgName := pkgName w;
     typeName := typeName w; funcName := funcName w;
     closureID := closureID w; n := n w |}.

Definition set_filename (w : t) (v : string) : t :=
  {| id := id w; countMode := countMode w; needCapture := needCapture w;
     needMatchLine := needMatchLine w; workDir := workDir w;
     heatmapFilenameSet := heatmapFilenameSet w; heatmap := heatmap w;
     filterHints := filterHints w; filterInfo := filterInfo w;
     filterExpr := filterExpr w; m := m w; gogrepState := gogrepState w;
     fset := fset w; matches := matches w; errors := errors w;
     data := data w; filename := v; pkgName := pkgName w;
     typeName := typeName w; funcName := funcName w;
     closureID := closureID w; n := n w |}.

Definition set_pkgName (w : t) (v : string) : t :=
  {| id := id w; countMode := countMode w; needCapture := needCapture w;
     needMatchLine := needMatchLine w; workDir := workDir w;
     heatmapFilenameSet := heatmapFilenameSet w; heatmap := heatmap w;
     filterHints := filterHints w; filterInfo := filterInfo w;
     filterExpr := filterExpr w; m := m w; gogrepState := gogrepState w;
     fset := fset w; matches := matches w; errors := errors w;
     data := data w; filename := filename w; pkgName := v;
     typeName := typeName w; funcName := funcName w;
     closureID := closureID w; n := n w |}.

Definition set_n (w : t) (v : Z) : t :=
  {| id := id w; countMode := countMode w; needCapture := needCapture w;
     needMatchLine := needMatchLine w; workDir := workDir w;
     heatmapFilenameSet := heatmapFilenameSet w; heatmap := heatmap w;
     filterHints := filterHints w; filterInfo := filterInfo w;
     filterExpr := filterExpr w; m := m w; gogrepState := gogrepState w;
     fset := fset w; matches := matches w; errors := errors w;
     data := data w; filename := filename w; pkgName := pkgName w;
     typeName := typeName w; funcName := funcName w;
     closureID := closureID w; n := v |}.
End Worker.
End worker.

(** The context handed to the filter evaluator ([filterContext{w, m}]). *)
Record filterContext `{Externals} := {
  fc_w : worker.t;
  fc_m : gogrep.MatchData
}.

(** What the worker observes of the outside: what [os.ReadFile] gives for
    a name (the bytes, or the text of the error), the names it was asked
    for so far, and how many times the filter evaluator was invoked. *)
Record World := {
  disk : string -> list byte + string;
  reads : list string;
  filterCalls : nat
}.

Definition World_read (T : World) (name : string) : World :=
  {| disk := disk T; reads := reads T ++ [name];
     filterCalls := filterCalls T |}.

Definition World_filterCall (T : World) : World :=
  {| disk := disk T; reads := reads T; filterCalls := S (filterCalls T) |}.

(** The functions of the collaborators.
    - [strings_ToLower]: Go's [strings.ToLower].
    - [parser_parse name src comments]: the tree [parser.ParseFile] builds
      from [src] when the file is given base 1, with comment groups kept
      when [comments] is set, or the text of the syntax error.
    - [Pattern_MatchNode pat st n]: the hits [MatchNode] reports at [n], in
      order, each with the matcher state at the time of the callback, and
      the matcher state when it returns.
    - [applyFilter]: the filter evaluator.
    - [printer_Fprint]: the bytes [printer.Fprint] writes, or its error. *)
Class Env `{Externals} := {
  strings_ToLower : string -> string;
  parser_parse : string -> list byte -> bool -> File + string;
  Pattern_MatchNode :
    Pattern -> MatcherState -> Node ->
    list (MatcherState * gogrep.MatchData) * MatcherState;
  applyFilter : filterContext -> FilterExpr -> Node -> bool;
  printer_Fprint : FileSet -> Node -> list byte + string
}.

(** ** worker.go *)

Section WorkerGo.
Context `{Env}.

(** *** parseFile (lines 102-116)

    [parser.ParseFile] registers the file in [fset] (at the set's current
    base, with the size of [data]) before it parses; the registration
    stays when parsing fails.  Returns the updated set and the tree or
    the error.  Of the bits of [parser.Mode] only [ParseComments] is ever
    set here: the mode is the boolean [parseComments]. *)
Definition parser_ParseFile (fset : FileSet) (filename : string)
    (data : list byte) (parseComments : bool) : FileSet * (File + string) :=
  (FileSet_AddFile fset filename (len data) (lineStarts data),
   parser_parse filename data parseComments).

Definition parseFile (w : worker.t) (fset : FileSet) (filename : string)
    (data : list byte) : FileSet * (File + string) :=
  let needComments := false in
  let needComments :=
    if bool_decide (autogenCond (worker.filterHints w) ≠ bool3unset)
    then true else needComments in
  let parserFlags := needComments in
  match parser_ParseFile fset filename data parserFlags with
  | (fset', inr err) => (fset', inr err)
  | (fset', inl f) => (fset', inl f)
  end.

(** *** initMatchCapture (lines 148-159) *)
Definition initMatchCapture (w : worker.t) (m : Match.t)
    (capture : list gogrep.CapturedNode) : Match.t :=
  {| Match.filename := Match.filename m;
     Match.line := Match.line m;
     Match.startOffset := Match.startOffset m;
     Match.endOffset := Match.endOffset m;
     Match.capture :=
       map (fun c =>
              let startOffset :=
                Offset (FileSet_Position (worker.fset w)
                          (Node_Pos (gogrep.cn_Node c))) in
              let endOffset :=
                Offset (FileSet_Position (worker.fset w)
                          (Node_End (gogrep.cn_Node c))) in
              {| capturedNode.startOffset := startOffset;
                 capturedNode.endOffset := endOffset;
                 capturedNode.data := c |})
           capture;
     Match.text := Match.text m;
     Match.matchStartOffset := Match.matchStartOffset m;
     Match.matchLength := Match.matchLength m |}.

(** *** initMatchText (lines 161-196) *)
Definition isNewline (b : byte) : bool :=
  Byte.eqb b x0a || Byte.eqb b x0d.

Definition setMatchText (m : Match.t) (text : string)
    (matchStartOffset matchLength : Z) : Match.t :=
  {| Match.filename := Match.filename m;
     Match.line := Match.line m;
     Match.startOffset := Match.startOffset m;
     Match.endOffset := Match.endOffset m;
     Match.capture := Match.capture m;
     Match.text := text;
     Match.matchStartOffset := matchStartOffset;
     Match.matchLength := matchLength |}.

(** The backward loop [for start > 0 { ... start-- }], with the loop
    variable [start] held as the counter [k]: the body runs while
    [k > 0], breaks at a newline byte and otherwise steps to [k - 1]. *)
Fixpoint expandStart_loop (data : list byte) (startPos : Z) (k : nat)
    : result Z :=
  match k with
  | O => Ok 0
  | S k' =>
      let start := Z.of_nat k in
      b ← index data start;
      if isNewline b then
        Ok (if bool_decide (start ≠ startPos) then start + 1 else start)
      else expandStart_loop data startPos k'
  end.

Definition expandStart (data : list byte) (startPos : Z) : result Z :=
  if 0 <? startPos then expandStart_loop data startPos (Z.to_nat startPos)
  else Ok startPos.

(** The forward loop [for end < len(w.data) { ... end++ }], with [k] the
    distance from the loop variable [end] to [len(w.data)]: the body runs
    while [k > 0], breaks at a newline byte and otherwise steps on. *)
Fixpoint expandEnd_loop (data : list byte) (k : nat) : result Z :=
  match k with
  | O => Ok (len data)
  | S k' =>
      let end_ := len data - Z.of_nat k in
      b ← index data end_;
      if isNewline b then Ok end_ else expandEnd_loop data k'
  end.

Definition expandEnd (data : list byte) (endPos : Z) : result Z :=
  if endPos <? len data
  then expandEnd_loop data (Z.to_nat (len data - endPos))
  else Ok endPos.

Definition initMatchText (w : worker.t) (m : Match.t) (startPos endPos : Z)
    : result Match.t :=
  if negb (worker.needMatchLine w) then
    bs ← slice (worker.data w) startPos endPos;
    let text := string_of_list_byte bs in
    Ok (setMatchText m text 0 (Z.of_nat (String.length text)))
  else
    start ← expandStart (worker.data w) startPos;
    end_ ← expandEnd (worker.data w) endPos;
    bs ← slice (worker.data w) start end_;
    Ok (setMatchText m (string_of_list_byte bs)
          (startPos - start) (endPos - startPos)).

(** *** Visit (lines 118-146)

    [visitMatch] is the callback handed to [MatchNode].  The disjunction
    that computes [accept] evaluates its right operand only when the left
    one is false, so the evaluator is called (and the call logged in the
    world) only for a filter expression that is not the no-op.
    [visitMatches] runs the callback on the hits of one node, the matcher
    state being the one the matcher had at each call; [Visit] leaves the
    state the matcher returns with. *)
Definition visitMatch (w : worker.t) (T : World)
    (data : gogrep.MatchData) : result (worker.t * World) :=
  let '(accept, T) :=
    if bool_decide (Op (worker.filterExpr w) = OpNop) then (true, T)
    else (applyFilter {| fc_w := w; fc_m := data |}
            (worker.filterExpr w) (gogrep.md_Node data),
          World_filterCall T) in
  if negb accept then Ok (w, T)
  else
    let w := worker.set_n w (worker.n w + 1) in
    if worker.countMode w then Ok (w, T)
    else
      let start :=
        FileSet_Position (worker.fset w) (Node_Pos (gogrep.md_Node data)) in
      let end_ :=
        FileSet_Position (worker.fset w) (Node_End (gogrep.md_Node data)) in
      let m :=
        {| Match.filename := worker.filename w;
           Match.line := Line start;
           Match.startOffset := Offset start;
           Match.endOffset := Offset end_;
           Match.capture := [];
           Match.text := EmptyString;
           Match.matchStartOffset := 0;
           Match.matchLength := 0 |} in
      let m :=
        if worker.needCapture w
        then initMatchCapture w m (gogrep.md_Capture data) else m in
      m ← initMatchText w m (Offset start) (Offset end_);
      Ok (worker.set_matches w (worker.matches w ++ [m]), T).

Fixpoint visitMatches (w : worker.t) (T : World)
    (hits : list (MatcherState * gogrep.MatchData))
    : result (worker.t * World) :=
  match hits with
  | [] => Ok (w, T)
  | (st, data) :: rest =>
      '(w, T) ← visitMatch (worker.set_gogrepState w st) T data;
      visitMatches w T rest
  end.

Definition Visit (w : worker.t) (T : World) (n : Node)
    : result (worker.t * World) :=
  let '(hits, st) :=
    Pattern_MatchNode (worker.m w) (worker.gogrepState w) n in
  '(w, T) ← visitMatches w T hits;
  Ok (worker.set_gogrepState w st, T).

(** *** nodeText (lines 198-221) *)
Definition nodeText (w : worker.t) (n : Node) : result (list byte) :=
  if IsEmptyNodeSlice n then Ok []
  else
    let from := Offset (FileSet_Position (worker.fset w) (Node_Pos n)) in
    let to := Offset (FileSet_Position (worker.fset w) (Node_End n)) in
    let src := worker.data w in
    if ((0 <=? from) && (from <? len src)) && ((0 <=? to) && (to <? len src))
    then slice src from to
    else
      match n with
      | CommentNode c => Ok (list_byte_of_string (Text c))
      | _ =>
          match printer_Fprint (worker.fset w) n with
          | inr err => Panic err
          | inl buf => Ok buf
          end
      end.

(** *** isAutogenFile, isAutogenComment (lines 223-250) *)
Fixpoint isAutogenComment_loop (generated doNotEdit : bool)
    (list : list Comment) : bool :=
  match list with
  | [] => false
  | c :: rest =>
      let s := strings_ToLower (Text c) in
      let generated :=
        if negb generated then
          strings_Contains s " code generated " ||
          strings_Contains s " generated by "
        else generated in
      let doNotEdit :=
        if negb doNotEdit then
          strings_Contains s "do not edit" ||
          strings_Contains s "don't edit"
        else doNotEdit in
      if generated && doNotEdit then true
      else isAutogenComment_loop generated doNotEdit rest
  end.

Definition isAutogenComment (comment : CommentGroup) : bool :=
  isAutogenComment_loop false false (List comment).

Fixpoint isAutogenFile_loop (comments : list CommentGroup) : bool :=
  match comments with
  | [] => false
  | comment :: rest =>
      if isAutogenComment comment then true else isAutogenFile_loop rest
  end.

Definition isAutogenFile (f : File) : bool :=
  isAutogenFile_loop (Comments f).

(** *** The tree walker

    Modelled from the spec: [astWalker.walk] is declared outside
    worker.go.  It visits every node of the tree exactly once, in
    pre-order, and calls [visit] on each; it keeps no state of its own
    besides the traversal cursor. *)
Fixpoint preorder (n : Node) : list Node :=
  n :: match n with
       | SyntaxNode _ _ children => flat_map preorder children
       | _ => []
       end.

Fixpoint visitAll (w : worker.t) (T : World) (nodes : list Node)
    : result (worker.t * World) :=
  match nodes with
  | [] => Ok (w, T)
  | n :: rest => '(w, T) ← Visit w T n; visitAll w T rest
  end.

Definition astWalker_walk (w : worker.t) (T : World) (root : Node)
    : result (worker.t * World) :=
  visitAll w T (preorder root).

(** *** grepFile (lines 53-100)

    [os.ReadFile] is looked up in [disk] and the request is logged in
    [reads].  The value is the worker and the world after the call and
    the pair [(int, error)] the Go function returns. *)
Definition os_ReadFile (T : World) (filename : string)
    : World * (list byte + string) :=
  (World_read T filename, disk T filename).

Definition grepFile (w : worker.t) (T : World) (filename : string)
    : result (worker.t * World * (Z * option string)) :=
  if match worker.heatmapFilenameSet w with
     | Some set => bool_decide (filepath_Base filename ∉ set)
     | None => false
     end
  then Ok (w, T, (0, None))
  else
  if bool_decide (testCond (worker.filterHints w) ≠ bool3unset) &&
     (let isTest := strings_HasSuffix filename "_test.go" in
      negb (bool3_Eq (testCond (worker.filterHints w)) isTest))
  then Ok (w, T, (0, None))
  else
  match os_ReadFile T filename with
  | (T, inr err) => Ok (w, T, (0, Some ("read file: " +:+ err)))
  | (T, inl data) =>
      let w := worker.set_fset w NewFileSet in
      match parseFile w (worker.fset w) filename data with
      | (fset', inr err) => Ok (worker.set_fset w fset', T, (0, Some err))
      | (fset', inl root) =>
          let w := worker.set_fset w fset' in
          if bool_decide (autogenCond (worker.filterHints w) ≠ bool3unset) &&
             negb (bool3_Eq (autogenCond (worker.filterHints w))
                     (isAutogenFile root))
          then Ok (w, T, (0, None))
          else
            let w := worker.set_data w data in
            let w := worker.set_filename w filename in
            let w := worker.set_pkgName w (Name root) in
            let w := worker.set_n w 0 in
            '(w, T) ← astWalker_walk w T (File_node root);
            Ok (w, T, (worker.n w, None))
      end
  end.
End WorkerGo.

(** ** A concrete environment

    Test doubles for the collaborators, on which the functions above can be
    run: a pattern is a predicate on nodes and the matcher reports a node
    when the predicate holds of it, with its children as captures; a filter
    expression either is the no-op or asks for a minimal width of the
    matched node; the parser knows a handful of sources. *)

Module Demo.

Inductive demoOp : Type := DemoNop | DemoMinWidth.

#[global] Instance demoOp_eq_dec : EqDecision demoOp.
Proof. solve_decision. Defined.

#[global] Instance externals : Externals := {|
  Pattern := Node -> bool;
  MatcherState := nat;
  HeatmapIndex := unit;
  FilterInfo := unit;
  FilterExpr := demoOp * Z;
  Operation := demoOp;
  Op := fst;
  OpNop := DemoNop
|}.

(** The ASCII path of [strings.ToLower]: 'A'..'Z' are shifted to
    'a'..'z', every other byte is kept. *)
Definition lowerAscii (c : ascii) : ascii :=
  let k := nat_of_ascii c in
  if ((65 <=? k) && (k <=? 90))%nat then ascii_of_nat (k + 32) else c.

Fixpoint ToLower (s : string) : string :=
  match s with
  | EmptyString => EmptyString
  | String c s' => String (lowerAscii c) (ToLower s')
  end.

Definition bytes (s : string) : list byte := list_byte_of_string s.

Definition newline : string := String (ascii_of_nat 10) EmptyString.

Definition leaf (pos end_ : Z) : Node := SyntaxNode pos end_ [].

(** "package p\nvar x = 1 + 2\n": the addition is at offsets 18..23. *)
Definition srcAdd : string :=
  "package p" +:+ newline +:+ "var x = 1 + 2" +:+ newline.

Definition addExpr : Node := SyntaxNode 19 24 [leaf 19 20; leaf 23 24].

Definition treeAdd : File :=
  {| Package := 1; Name := "p";
     Decls := [SyntaxNode 11 24 [SyntaxNode 15 24 [leaf 15 16; addExpr]]];
     FileEnd := 25; Comments := [] |}.

(** The same declaration after an empty first line:
    "\npackage p; var x = 1 + 2", the addition at offsets 20..25. *)
Definition srcLead : string := newline +:+ "package p; var x = 1 + 2".

Definition treeLead : File :=
  {| Package := 2; Name := "p";
     Decls := [SyntaxNode 13 26
                 [SyntaxNode 17 26
                    [leaf 17 18; SyntaxNode 21 26 [leaf 21 22; leaf 25 26]]]];
     FileEnd := 26; Comments := [] |}.

(** A generated file; its comment group is in the tree only when comments
    are asked for. *)
Definition srcGen : string :=
  "// Code generated by stringer. DO NOT EDIT." +:+ newline +:+
  "package p" +:+ newline.

Definition genComment : Comment :=
  {| Slash := 1; Text := "// Code generated by stringer. DO NOT EDIT." |}.

Definition treeGen (comments : bool) : File :=
  {| Package := 45; Name := "p"; Decls := []; FileEnd := 55;
     Comments := if comments then [ {| List := [genComment] |} ] else [] |}.

(** A source the parser rejects. *)
Definition srcBad : string := "package".

Definition parse (name : string) (src : list byte) (comments : bool)
    : File + string :=
  let s := string_of_list_byte src in
  if String.eqb s srcAdd then inl treeAdd
  else if String.eqb s srcLead then inl treeLead
  else if String.eqb s srcGen then inl (treeGen comments)
  else inr (name +:+ ":1:8: expected 'IDENT', found 'EOF'").

Definition MatchNode (pat : Node -> bool) (st : nat) (n : Node)
    : list (nat * gogrep.MatchData) * nat :=
  if pat n then
    ([(S st,
       {| gogrep.md_Node := n;
          gogrep.md_Capture :=
            match n with
            | SyntaxNode _ _ children =>
                map (fun c => {| gogrep.cn_Name := "x"; gogrep.cn_Node := c |})
                    children
            | _ => []
            end |})],
     S st)
  else ([], S st).

Definition filter (ctx : filterContext) (e : demoOp * Z) (n : Node) : bool :=
  match fst e with
  | DemoNop => true
  | DemoMinWidth => snd e <=? Node_End n - Node_Pos n
  end.

Definition Fprint (fset : FileSet) (n : Node) : list byte + string :=
  match n with
  | SyntaxNode p e _ =>
      if p <=? e then inl (bytes "<node>") else inr "printer: bad node"%string
  | _ => inr "printer: unsupported node"%string
  end.

#[global] Instance env : Env := {|
  strings_ToLower := ToLower;
  parser_parse := parse;
  Pattern_MatchNode := MatchNode;
  applyFilter := filter;
  printer_Fprint := Fprint
|}.

Definition files (name : string) : list byte + string :=
  if String.eqb name "add.go" then inl (bytes srcAdd)
  else if String.eqb name "dir/add_test.go" then inl (bytes srcAdd)
  else if String.eqb name "lead.go" then inl (bytes srcLead)
  else if String.eqb name "gen.go" then inl (bytes srcGen)
  else if String.eqb name "bad.go" then inl (bytes srcBad)
  else inr ("open " +:+ name +:+ ": no such file or directory").

Definition world : World := {| disk := files; reads := []; filterCalls := 0 |}.

(** Patterns: nodes with exactly two children that are leaves (the
    binary expression), and every node. *)
Definition isBinary (n : Node) : bool :=
  match n with
  | SyntaxNode _ _ [SyntaxNode _ _ []; SyntaxNode _ _ []] => true
  | _ => false
  end.

Definition anyNode (n : Node) : bool := true.

Definition hints (t a : bool3) : filterHints :=
  {| testCond := t; autogenCond := a |}.

Definition mkWorker (count capture line : bool)
    (set : option (gset string)) (h : filterHints) (e : demoOp * Z)
    (pat : Node -> bool) : worker.t :=
  {| worker.id := 0; worker.countMode := count;
     worker.needCapture := capture; worker.needMatchLine := line;
     worker.workDir := "/src"; worker.heatmapFilenameSet := set;
     worker.heatmap := None; worker.filterHints := h;
     worker.filterInfo := None; worker.filterExpr := e;
     worker.m := pat; worker.gogrepState := O;
     worker.fset := NewFileSet; worker.matches := [];
     worker.errors := []; worker.data := []; worker.filename := EmptyString;
     worker.pkgName := EmptyString; worker.typeName := EmptyString;
     worker.funcName := EmptyString;
     worker.closureID := 0; worker.n := 0 |}.

Definition nop : demoOp * Z := (DemoNop, 0).

Definition plain : filterHints := hints bool3unset bool3unset.

(** A worker in the middle of the scan of "add.go": its bytes and its
    position table are set. *)
Definition scanning (count capture line : bool) : worker.t :=
  worker.set_fset
    (worker.set_data
       (worker.set_filename
          (mkWorker count capture line None plain nop isBinary) "add.go")
       (bytes srcAdd))
    (FileSet_AddFile NewFileSet "add.go" (len (bytes srcAdd))
       (lineStarts (bytes srcAdd))).

(** A match record with nothing filled in. *)
Definition blankMatch : Match.t :=
  {| Match.filename := "add.go"; Match.line := 2;
     Match.startOffset := 18; Match.endOffset := 23;
     Match.capture := []; Match.text := EmptyString;
     Match.matchStartOffset := 0; Match.matchLength := 0 |}.

(** The hit of the matcher on the addition of "add.go". *)
Definition addHit : gogrep.MatchData :=
  {| gogrep.md_Node := addExpr; gogrep.md_Capture := [] |}.

End Demo.

(** ** Vocabulary of the specification *)

Section SpecVocabulary.
Context `{Env}.

(** The two signals of a generation marker, on one comment. *)
Definition saysGenerated (c : Comment) : bool :=
  strings_Contains (strings_ToLower (Text c)) " code generated " ||
  strings_Contains (strings_ToLower (Text c)) " generated by ".

Definition saysDoNotEdit (c : Comment) : bool :=
  strings_Contains (strings_ToLower (Text c)) "do not edit" ||
  strings_Contains (strings_ToLower (Text c)) "don't edit".

(** A comment group has both signals, on any of its lines. *)
Definition hasBothSignals (g : CommentGroup) : Prop :=
  (∃ c, c ∈ List g ∧ saysGenerated c = true) ∧
  (∃ c, c ∈ List g ∧ saysDoNotEdit c = true).

(** The Eligibility Prefilter skips a file: a heat map file name set is
    configured and the base name is not in it, or the test condition is
    set and differs from the test-suffix status of the name. *)
Definition isTestFile (filename : string) : bool :=
  strings_HasSuffix filename "_test.go".

Definition bool3_of_bool (b : bool) : bool3 :=
  if b then bool3true else bool3false.

Definition heatmapSkips (w : worker.t) (filename : string) : Prop :=
  ∃ set, worker.heatmapFilenameSet w = Some set ∧
         filepath_Base filename ∉ set.

Definition testCondSkips (w : worker.t) (filename : string) : Prop :=
  testCond (worker.filterHints w) ≠ bool3unset ∧
  testCond (worker.filterHints w) ≠ bool3_of_bool (isTestFile filename).

Definition prefilterSkips (w : worker.t) (filename : string) : Prop :=
  heatmapSkips w filename ∨ testCondSkips w filename.

(** Whether the parser is asked to keep comments for this worker. *)
Definition needComments (w : worker.t) : bool :=
  bool_decide (autogenCond (worker.filterHints w) ≠ bool3unset).

(** The autogeneration condition is set and differs from what the
    detector says of the tree. *)
Definition autogenCondSkips (w : worker.t) (root : File) : Prop :=
  autogenCond (worker.filterHints w) ≠ bool3unset ∧
  autogenCond (worker.filterHints w) ≠ bool3_of_bool (isAutogenFile root).

(** The position table [grepFile] builds for a file. *)
Definition fsetOf (filename : string) (data : list byte) : FileSet :=
  FileSet_AddFile NewFileSet filename (len data) (lineStarts data).

(** [grepFile] leaves before the walk: one of the five early returns. *)
Definition returnsEarly (w : worker.t) (T : World) (filename : string)
    : Prop :=
  prefilterSkips w filename ∨
  (∃ err, disk T filename = inr err) ∨
  (∃ data, disk T filename = inl data ∧
     ((∃ err, parser_parse filename data (needComments w) = inr err) ∨
      (∃ root, parser_parse filename data (needComments w) = inl root ∧
               autogenCondSkips w root))).

(** Two workers that differ at most in the mode flag and in the matches
    collected so far. *)
Definition sameScanContext (w1 w2 : worker.t) : Prop :=
  worker.set_matches (worker.set_countMode w1 (worker.countMode w2))
    (worker.matches w2) = w2.

(** The filter evaluator looks at the file being scanned and at the hit,
    not at the mode flag or the matches collected so far. *)
Definition filterIgnoresMode : Prop :=
  ∀ w1 w2 data e n,
    sameScanContext w1 w2 →
    applyFilter {| fc_w := w1; fc_m := data |} e n =
    applyFilter {| fc_w := w2; fc_m := data |} e n.

(** A position inside the file registered at base 1 with [size] bytes. *)
Definition inFile (size p : Z) : Prop := 1 ≤ p ≤ 1 + size.

(** A node whose start lies in the file ends in the file, not before its
    start.  The parser builds only such nodes. *)
Definition nodeOrdered (size : Z) (n : Node) : Prop :=
  inFile size (Node_Pos n) →
  Node_Pos n ≤ Node_End n ∧ inFile size (Node_End n).

Definition hitOrdered (size : Z) (d : gogrep.MatchData) : Prop :=
  nodeOrdered size (gogrep.md_Node d) ∧
  Forall (fun c => nodeOrdered size (gogrep.cn_Node c)) (gogrep.md_Capture d).

(** Offsets that are valid indices into [size] bytes. *)
Definition validRange (size lo hi : Z) : Prop := 0 ≤ lo ≤ hi ≤ size.

Definition matchInBounds (size : Z) (m : Match.t) : Prop :=
  validRange size (Match.startOffset m) (Match.endOffset m) ∧
  Forall (fun c => validRange size (capturedNode.startOffset c)
                     (capturedNode.endOffset c))
         (Match.capture m).

(** The record [Visit] builds for an accepted hit outside count mode. *)
Definition materialize (w : worker.t) (d : gogrep.MatchData)
    : result Match.t :=
  let start :=
    FileSet_Position (worker.fset w) (Node_Pos (gogrep.md_Node d)) in
  let end_ :=
    FileSet_Position (worker.fset w) (Node_End (gogrep.md_Node d)) in
  let m :=
    {| Match.filename := worker.filename w;
       Match.line := Line start;
       Match.startOffset := Offset start;
       Match.endOffset := Offset end_;
       Match.capture := [];
       Match.text := EmptyString;
       Match.matchStartOffset := 0;
       Match.matchLength := 0 |} in
  let m :=
    if worker.needCapture w
    then initMatchCapture w m (gogrep.md_Capture d) else m in
  initMatchText w m (Offset start) (Offset end_).

(** The hits the matcher reports along a list of nodes, the matcher
    state being threaded from node to node. *)
Fixpoint hitsAlong (pat : Pattern) (st : MatcherState) (nodes : list Node)
    : list gogrep.MatchData :=
  match nodes with
  | [] => []
  | n :: rest =>
      let '(hits, st') := Pattern_MatchNode pat st n in
      map snd hits ++ hitsAlong pat st' rest
  end.

(** Line expansion as the specification words it: the offset after the
    nearest newline before [pos] (0 when there is none), and the offset
    of the nearest newline at or after [pos] (the length when there is
    none). *)
Fixpoint lineStartBefore (data : list byte) (k : nat) : Z :=
  match k with
  | O => 0
  | S k' =>
      match data !! k' with
      | Some b => if isNewline b then Z.of_nat k else lineStartBefore data k'
      | None => lineStartBefore data k'
      end
  end.

Definition lineStart (data : list byte) (pos : Z) : Z :=
  lineStartBefore data (Z.to_nat pos).

Fixpoint lineEndFrom (rest : list byte) (pos : Z) : Z :=
  match rest with
  | [] => pos
  | b :: rest' => if isNewline b then pos else lineEndFrom rest' (pos + 1)
  end.

Definition lineEnd (data : list byte) (pos : Z) : Z :=
  lineEndFrom (drop (Z.to_nat pos) data) pos.
(** [w'] is [w] up to what a walk writes: the matcher state, the match
    counter and the collected matches. *)
Definition walkFrame (w w' : worker.t) : Prop :=
  w' = worker.set_matches
         (worker.set_n (worker.set_gogrepState w (worker.gogrepState w'))
            (worker.n w'))
         (worker.matches w').

(** What handling the hits [ds] does to a worker and to the world: the
    worker changes within [walkFrame]; the disk and the log of reads stay;
    the counter grows by at most one per hit; every new match is the
    materialization of one of the hits; in count mode there is no new
    match and otherwise there is one per increment of the counter; under
    the no-op filter every hit counts and the evaluator is not called. *)
Definition handled (w : worker.t) (T : World) (w' : worker.t) (T' : World)
    (ds : list gogrep.MatchData) : Prop :=
  walkFrame w w' ∧
  disk T' = disk T ∧ reads T' = reads T ∧
  worker.n w ≤ worker.n w' ≤ worker.n w + len ds ∧
  (∃ new, worker.matches w' = worker.matches w ++ new ∧
          Forall (fun m => ∃ d, d ∈ ds ∧ materialize w d = Ok m) new ∧
          if worker.countMode w then new = []
          else len new = worker.n w' - worker.n w) ∧
  (Op (worker.filterExpr w) = OpNop →
   worker.n w' = worker.n w + len ds ∧ T' = T).

(** Two outcomes of [grepFile] that agree up to the position table left
    in the worker. *)
Definition agreeUpToFset
    (r1 r2 : result (worker.t * World * (Z * option string))) : Prop :=
  match r1, r2 with
  | Ok (w1, T1, v1), Ok (w2, T2, v2) =>
      worker.set_fset w1 (worker.fset w2) = w2 ∧ T1 = T2 ∧ v1 = v2
  | Panic msg1, Panic msg2 => msg1 = msg2
  | _, _ => False
  end.
(** The worker as [grepFile] sets it up before the walk. *)
Definition scanStart (w : worker.t) (filename : string) (data : list byte)
    (root : File) : worker.t :=
  worker.set_n
    (worker.set_pkgName
       (worker.set_filename
          (worker.set_data (worker.set_fset w (fsetOf filename data)) data)
          filename)
       (Name root))
    0.
(** What [grepFile] does before the walk: the value of an early return, or
    the worker, the world and the tree the walk starts from. *)
Definition prepare (w : worker.t) (T : World) (filename : string)
    : (worker.t * World * (Z * option string)) + (worker.t * World * File) :=
  if match worker.heatmapFilenameSet w with
     | Some set => bool_decide (filepath_Base filename ∉ set)
     | None => false
     end
  then inl (w, T, (0, None))
  else
  if bool_decide (testCond (worker.filterHints w) ≠ bool3unset) &&
     negb (bool3_Eq (testCond (worker.filterHints w)) (isTestFile filename))
  then inl (w, T, (0, None))
  else
  match disk T filename with
  | inr err =>
      inl (w, World_read T filename, (0, Some ("read file: " +:+ err)))
  | inl data =>
      match parser_parse filename data (needComments w) with
      | inr err =>
          inl (worker.set_fset w (fsetOf filename data),
               World_read T filename, (0, Some err))
      | inl root =>
          if bool_decide (autogenCond (worker.filterHints w) ≠ bool3unset) &&
             negb (bool3_Eq (autogenCond (worker.filterHints w))
                     (isAutogenFile root))
          then inl (worker.set_fset w (fsetOf filename data),
                    World_read T filename, (0, None))
          else inr (scanStart w filename data root,
                    World_read T filename, root)
      end
  end.

(** The count-mode view of a worker: the mode flag set, the matches [ms]. *)
Definition countView (ms : list Match.t) (w : worker.t) : worker.t :=
  worker.set_matches (worker.set_countMode w true) ms.
(** The byte of [data] at offset [i] is a newline. *)
Definition newlineAt (data : list byte) (i : Z) : Prop :=
  0 ≤ i ∧ ∃ b, data !! Z.to_nat i = Some b ∧ isNewline b = true.

(** What handling the hits [ds] does, in order: some of the hits, kept in
    the order the matcher reported them, are accepted; the counter grows
    by their number; outside count mode one match is appended for each of
    them, in the same order, and in count mode none; under the no-op
    filter all hits are accepted; the evaluator is called once per hit
    unless the filter is the no-op. *)
Definition handledInOrder (w : worker.t) (T : World) (w' : worker.t)
    (T' : World) (ds : list gogrep.MatchData) : Prop :=
  ∃ acc new,
    sublist acc ds ∧
    worker.n w' = worker.n w + len acc ∧
    worker.matches w' = worker.matches w ++ new ∧
    (if worker.countMode w then new = []
     else Forall2 (fun d m => materialize w d = Ok m) acc new) ∧
    (Op (worker.filterExpr w) = OpNop → acc = ds) ∧
    filterCalls T' =
      (filterCalls T +
       if bool_decide (Op (worker.filterExpr w) = OpNop) then 0
       else length ds)%nat.

(** Offsets that lie in [size] bytes, in any order. *)
Definition offsetsInFile (size : Z) (m : Match.t) : Prop :=
  0 ≤ Match.startOffset m ≤ size ∧ 0 ≤ Match.endOffset m ≤ size ∧
  Forall (fun c => 0 ≤ capturedNode.startOffset c ≤ size ∧
                   0 ≤ capturedNode.endOffset c ≤ size)
         (Match.capture m).
End SpecVocabulary.

(** * Properties *)

(** ** Autogeneration detector *)

Section Autogen.
Context `{Env}.

(** The loop over the lines of a group keeps two sticky flags; as long
    as it has not returned, not both are set. *)
Lemma isAutogenComment_loop_spec generated doNotEdit list :
  generated && doNotEdit = false →
  isAutogenComment_loop generated doNotEdit list =
  (generated || existsb saysGenerated list) &&
  (doNotEdit || existsb saysDoNotEdit list).
Proof.
  revert generated doNotEdit.
  induction list as [|c rest IH]; intros g d Hgd; simpl.
  - rewrite !orb_false_r. by rewrite Hgd.
  - fold (saysGenerated c). fold (saysDoNotEdit c).
    assert (Hg : (if negb g then saysGenerated c else g) = g || saysGenerated c)
      by (destruct g; reflexivity).
    assert (Hd : (if negb d then saysDoNotEdit c else d) = d || saysDoNotEdit c)
      by (destruct d; reflexivity).
    rewrite Hg, Hd.
    destruct ((g || saysGenerated c) && (d || saysDoNotEdit c)) eqn:Hboth.
    + apply andb_true_iff in Hboth as [Hg' Hd'].
      rewrite !orb_assoc, Hg', Hd'. reflexivity.
    + rewrite IH by exact Hboth. by rewrite !orb_assoc.
Qed.

Lemma isAutogenComment_spec comment :
  isAutogenComment comment = true ↔ hasBothSignals comment.
Proof.
  unfold isAutogenComment, hasBothSignals.
  rewrite isAutogenComment_loop_spec by reflexivity. simpl.
  rewrite andb_true_iff, !existsb_exists.
  split; intros [[c [Hc ?]] [c' [Hc' ?]]]; (split; [exists c | exists c']);
    split; try done; by apply list_elem_of_In.
Qed.

Lemma isAutogenFile_loop_spec comments :
  isAutogenFile_loop comments = true ↔
  ∃ g, g ∈ comments ∧ isAutogenComment g = true.
Proof.
  induction comments as [|g rest IH]; simpl.
  - split; [done | intros [g [Hg _]]; by apply elem_of_nil in Hg].
  - destruct (isAutogenComment g) eqn:Hg.
    + split; [intros _; exists g; split; [left | done] | done].
    + rewrite IH. split.
      * intros [g' [Hin Hg']]. exists g'. split; [by right | done].
      * intros [g' [Hin Hg']]. apply elem_of_cons in Hin as [-> | Hin].
        -- congruence.
        -- by exists g'.
Qed.

(** C4. A parsed file is flagged as autogenerated exactly when one of its
    comment groups holds both a code-generation phrase and a do-not-edit
    phrase, each looked for in the lower-cased text of a comment, on any
    lines of the group and in any order.  A file none of whose groups has
    both is not flagged. *)
Theorem isAutogenFile_iff_group_with_both_signals (f : File) :
  isAutogenFile f = true ↔ ∃ g, g ∈ Comments f ∧ hasBothSignals g.
Proof.
  unfold isAutogenFile. rewrite isAutogenFile_loop_spec.
  split; intros [g [Hin Hg]]; exists g; (split; [done |]);
    by apply isAutogenComment_spec.
Qed.
End Autogen.

(** ** Outcomes and frames *)

Lemma bind_Ok {A B} (f : A → result B) (r : result A) (b : B) :
  r ≫= f = Ok b → ∃ a, r = Ok a ∧ f a = Ok b.
Proof. destruct r as [a|msg]; simpl; [eauto | discriminate]. Qed.

Lemma len_app {A} (l1 l2 : list A) : len (l1 ++ l2) = len l1 + len l2.
Proof. unfold len. rewrite length_app. lia. Qed.

Lemma len_nonneg {A} (l : list A) : 0 ≤ len l.
Proof. unfold len. lia. Qed.

Lemma bool3_Eq_spec (b : bool3) (v : bool) :
  bool3_Eq b v = true ↔ b = bool3_of_bool v.
Proof. destruct b, v; compute; intuition congruence. Qed.

Lemma cond_mismatch_spec (c : bool3) (v : bool) :
  bool_decide (c ≠ bool3unset) && negb (bool3_Eq c v) = true ↔
  c ≠ bool3unset ∧ c ≠ bool3_of_bool v.
Proof. destruct c, v; compute; intuition congruence. Qed.

Section Frames.
Context `{Env}.

Lemma walkFrame_refl w : walkFrame w w.
Proof. unfold walkFrame. by destruct w. Qed.

Lemma walkFrame_trans w1 w2 w3 :
  walkFrame w1 w2 → walkFrame w2 w3 → walkFrame w1 w3.
Proof.
  unfold walkFrame. intros H12 H23.
  destruct w1, w2, w3; simpl in *.
  inversion H12; inversion H23; subst. reflexivity.
Qed.

Lemma walkFrame_set_gogrepState w st :
  walkFrame w (worker.set_gogrepState w st).
Proof. unfold walkFrame. by destruct w. Qed.

Lemma walkFrame_fields w w' :
  walkFrame w w' →
  worker.countMode w' = worker.countMode w ∧
  worker.needCapture w' = worker.needCapture w ∧
  worker.needMatchLine w' = worker.needMatchLine w ∧
  worker.filterExpr w' = worker.filterExpr w ∧
  worker.m w' = worker.m w ∧
  worker.fset w' = worker.fset w ∧
  worker.errors w' = worker.errors w ∧
  worker.data w' = worker.data w ∧
  worker.filename w' = worker.filename w ∧
  worker.pkgName w' = worker.pkgName w.
Proof. intros Hf. rewrite Hf. by repeat split. Qed.

Lemma materialize_frame w w' d :
  walkFrame w w' → materialize w' d = materialize w d.
Proof. intros Hf. rewrite Hf. reflexivity. Qed.

Lemma handled_nil w T : handled w T w T [].
Proof.
  unfold handled. change (len (@nil gogrep.MatchData)) with 0.
  split; [apply walkFrame_refl |].
  split; [done |]. split; [done |]. split; [lia |]. split.
  - exists []. rewrite app_nil_r. split; [done |]. split; [constructor |].
    destruct (worker.countMode w); [done | change (len (@nil Match.t)) with 0; lia].
  - intros _. split; [lia | done].
Qed.

Lemma handled_set_gogrepState w T st :
  handled w T (worker.set_gogrepState w st) T [].
Proof.
  unfold handled. change (len (@nil gogrep.MatchData)) with 0.
  split; [apply walkFrame_set_gogrepState |]. simpl.
  split; [done |]. split; [done |]. split; [lia |]. split.
  - exists []. rewrite app_nil_r. split; [done |]. split; [constructor |].
    destruct (worker.countMode w); [done | change (len (@nil Match.t)) with 0; lia].
  - intros _. split; [lia | done].
Qed.

Lemma handled_app w T w1 T1 w2 T2 ds1 ds2 :
  handled w T w1 T1 ds1 → handled w1 T1 w2 T2 ds2 →
  handled w T w2 T2 (ds1 ++ ds2).
Proof.
  intros (Hf1 & Hd1 & Hr1 & Hn1 & (new1 & Hm1 & Hall1 & Hc1) & Hnop1)
         (Hf2 & Hd2 & Hr2 & Hn2 & (new2 & Hm2 & Hall2 & Hc2) & Hnop2).
  destruct (walkFrame_fields _ _ Hf1)
    as (Hcm & _ & _ & Hfe & _).
  rewrite Hcm in Hc2. rewrite Hfe in Hnop2.
  unfold handled. rewrite len_app.
  pose proof (len_nonneg ds1). pose proof (len_nonneg ds2).
  split; [by eapply walkFrame_trans |].
  split; [congruence |]. split; [congruence |]. split; [lia |]. split.
  - exists (new1 ++ new2). split; [by rewrite Hm2, Hm1, app_assoc |]. split.
    + apply Forall_app. split.
      * eapply Forall_impl; [exact Hall1 |].
        intros m (d & Hd & Hmat). exists d.
        split; [apply elem_of_app; by left | done].
      * eapply Forall_impl; [exact Hall2 |].
        intros m (d & Hd & Hmat). exists d.
        split; [apply elem_of_app; by right |].
        by rewrite <- (materialize_frame w w1).
    + destruct (worker.countMode w); [by subst |]. rewrite len_app. lia.
  - intros Hop. destruct (Hnop1 Hop) as [? ->]. destruct (Hnop2 Hop) as [? ->].
    split; [lia | done].
Qed.
End Frames.

(** ** The visitation callback and the walk *)

Section Walk.
Context `{Env}.

(** [visitMatch], with the match record named. *)
Lemma visitMatch_unfold w T d :
  visitMatch w T d =
  let nop := bool_decide (Op (worker.filterExpr w) = OpNop) in
  let accept :=
    nop || applyFilter {| fc_w := w; fc_m := d |}
             (worker.filterExpr w) (gogrep.md_Node d) in
  let T1 := if nop then T else World_filterCall T in
  if negb accept then Ok (w, T1)
  else if worker.countMode w
  then Ok (worker.set_n w (worker.n w + 1), T1)
  else
    m ← materialize w d;
    Ok (worker.set_matches (worker.set_n w (worker.n w + 1))
          (worker.matches w ++ [m]), T1).
Proof.
  unfold visitMatch.
  destruct (bool_decide (Op (worker.filterExpr w) = OpNop)); reflexivity.
Qed.

Lemma visitMatch_handled w T d w' T' :
  visitMatch w T d = Ok (w', T') → handled w T w' T' [d].
Proof.
  rewrite visitMatch_unfold. cbv zeta.
  destruct (bool_decide (Op (worker.filterExpr w) = OpNop)) eqn:Hop.
  - (* the no-op filter: accepted, the evaluator is not called *)
    simpl. destruct (worker.countMode w) eqn:Hcm.
    + intros [= <- <-]. unfold handled. rewrite Hcm. simpl.
      change (len [d]) with 1.
      split; [unfold walkFrame; by destruct w |].
      split; [done |]. split; [done |]. split; [lia |]. split.
      * exists []. by rewrite app_nil_r.
      * done.
    + intros Hb. apply bind_Ok in Hb as (m & Hm & [= <- <-]).
      unfold handled. rewrite Hcm. simpl. change (len [d]) with 1.
      split; [unfold walkFrame; by destruct w |].
      split; [done |]. split; [done |]. split; [lia |]. split.
      * exists [m]. split; [done |]. split.
        -- constructor; [| constructor]. exists d. split; [left | done].
        -- change (len [m]) with 1. lia.
      * done.
  - (* a proper filter: the evaluator decides *)
    apply bool_decide_eq_false in Hop. simpl.
    destruct (applyFilter _ _ _); simpl.
    + destruct (worker.countMode w) eqn:Hcm.
      * intros [= <- <-]. unfold handled. rewrite Hcm. simpl.
        change (len [d]) with 1.
        split; [unfold walkFrame; by destruct w |].
        split; [done |]. split; [done |]. split; [lia |]. split.
        -- exists []. by rewrite app_nil_r.
        -- done.
      * intros Hb. apply bind_Ok in Hb as (m & Hm & [= <- <-]).
        unfold handled. rewrite Hcm. simpl. change (len [d]) with 1.
        split; [unfold walkFrame; by destruct w |].
        split; [done |]. split; [done |]. split; [lia |]. split.
        -- exists [m]. split; [done |]. split.
           ++ constructor; [| constructor]. exists d. split; [left | done].
           ++ change (len [m]) with 1. lia.
        -- done.
    + intros [= <- <-]. unfold handled. simpl. change (len [d]) with 1.
      split; [apply walkFrame_refl |].
      split; [done |]. split; [done |]. split; [lia |]. split.
      * exists []. rewrite app_nil_r. split; [done |]. split; [constructor |].
        destruct (worker.countMode w); [done |].
        change (len (@nil Match.t)) with 0. lia.
      * done.
Qed.

Lemma visitMatches_handled hits : ∀ w T w' T',
  visitMatches w T hits = Ok (w', T') → handled w T w' T' (map snd hits).
Proof.
  induction hits as [|[st d] rest IH]; intros w T w' T'; simpl.
  - intros [= <- <-]. apply handled_nil.
  - intros Hb. apply bind_Ok in Hb as ([w1 T1] & Hhit & Hrest).
    apply visitMatch_handled in Hhit. apply IH in Hrest.
    pose proof (handled_set_gogrepState w T st) as Hst.
    pose proof (handled_app _ _ _ _ _ _ _ _ Hst Hhit) as H1.
    exact (handled_app _ _ _ _ _ _ _ _ H1 Hrest).
Qed.

Lemma Visit_handled w T n w' T' :
  Visit w T n = Ok (w', T') →
  handled w T w' T'
    (map snd (Pattern_MatchNode (worker.m w) (worker.gogrepState w) n).1) ∧
  worker.gogrepState w' =
    (Pattern_MatchNode (worker.m w) (worker.gogrepState w) n).2.
Proof.
  unfold Visit.
  destruct (Pattern_MatchNode (worker.m w) (worker.gogrepState w) n)
    as [hits st]. simpl.
  intros Hb. apply bind_Ok in Hb as ([w1 T1] & Hhits & [= <- <-]).
  apply visitMatches_handled in Hhits. split; [| done].
  pose proof (handled_set_gogrepState w1 T1 st) as Hst.
  pose proof (handled_app _ _ _ _ _ _ _ _ Hhits Hst) as H1.
  by rewrite app_nil_r in H1.
Qed.

Lemma visitAll_handled nodes : ∀ w T w' T',
  visitAll w T nodes = Ok (w', T') →
  handled w T w' T' (hitsAlong (worker.m w) (worker.gogrepState w) nodes).
Proof.
  induction nodes as [|n rest IH]; intros w T w' T'; simpl.
  - intros [= <- <-]. apply handled_nil.
  - intros Hb. apply bind_Ok in Hb as ([w1 T1] & Hn & Hrest).
    apply Visit_handled in Hn as [Hn Hst]. apply IH in Hrest.
    destruct Hn as [Hf Hn'].
    destruct (walkFrame_fields _ _ Hf) as (_ & _ & _ & _ & Hm & _).
    rewrite Hm, Hst in Hrest.
    destruct (Pattern_MatchNode (worker.m w) (worker.gogrepState w) n)
      as [hits st]. simpl in *.
    exact (handled_app _ _ _ _ _ _ _ _ (conj Hf Hn') Hrest).
Qed.

(** In count mode the callback, and so the walk, never panics. *)
Lemma visitMatch_countMode_Ok w T d :
  worker.countMode w = true →
  ∃ w' T', visitMatch w T d = Ok (w', T').
Proof.
  intros Hcm. rewrite visitMatch_unfold. cbv zeta. rewrite Hcm.
  destruct (negb _); eauto.
Qed.

Lemma visitMatches_countMode_Ok hits : ∀ w T,
  worker.countMode w = true →
  ∃ w' T', visitMatches w T hits = Ok (w', T').
Proof.
  induction hits as [|[st d] rest IH]; intros w T Hcm; simpl; [eauto |].
  destruct (visitMatch_countMode_Ok (worker.set_gogrepState w st) T d Hcm)
    as (w1 & T1 & Hhit).
  rewrite Hhit. simpl. apply IH.
  apply visitMatch_handled in Hhit as [Hf _].
  destruct (walkFrame_fields _ _ Hf) as (-> & _). done.
Qed.

Lemma visitAll_countMode_Ok nodes : ∀ w T,
  worker.countMode w = true →
  ∃ w' T', visitAll w T nodes = Ok (w', T').
Proof.
  induction nodes as [|n rest IH]; intros w T Hcm; simpl; [eauto |].
  unfold Visit.
  destruct (Pattern_MatchNode (worker.m w) (worker.gogrepState w) n)
    as [hits st].
  destruct (visitMatches_countMode_Ok hits w T Hcm) as (w1 & T1 & Hhits).
  rewrite Hhits. simpl. apply IH. simpl.
  apply visitMatches_handled in Hhits as [Hf _].
  destruct (walkFrame_fields _ _ Hf) as (-> & _). done.
Qed.
End Walk.

(** ** The paths through grepFile *)

Section Paths.
Context `{Env}.

Lemma heatmapSkips_spec w filename :
  match worker.heatmapFilenameSet w with
  | Some set => bool_decide (filepath_Base filename ∉ set)
  | None => false
  end = true ↔ heatmapSkips w filename.
Proof.
  unfold heatmapSkips. destruct (worker.heatmapFilenameSet w) as [set|].
  - rewrite bool_decide_eq_true. split.
    + intros Hn. by exists set.
    + by intros (set' & [= <-] & Hn).
  - split; [done | by intros (set' & [=] & _)].
Qed.

Lemma testCondSkips_spec w filename :
  bool_decide (testCond (worker.filterHints w) ≠ bool3unset) &&
  negb (bool3_Eq (testCond (worker.filterHints w))
          (strings_HasSuffix filename "_test.go")) = true ↔
  testCondSkips w filename.
Proof. apply cond_mismatch_spec. Qed.

Lemma autogenCondSkips_spec w root :
  bool_decide (autogenCond (worker.filterHints w) ≠ bool3unset) &&
  negb (bool3_Eq (autogenCond (worker.filterHints w)) (isAutogenFile root))
  = true ↔ autogenCondSkips w root.
Proof. apply cond_mismatch_spec. Qed.

Lemma parseFile_spec w fset filename data :
  parseFile w fset filename data =
  (FileSet_AddFile fset filename (len data) (lineStarts data),
   parser_parse filename data (needComments w)).
Proof.
  unfold parseFile, parser_ParseFile, needComments.
  destruct (bool_decide _); by destruct (parser_parse _ _ _).
Qed.

(** [grepFile] takes exactly one of six paths: the five early returns and
    the walk. *)
Lemma grepFile_paths w T filename :
  (prefilterSkips w filename ∧
   grepFile w T filename = Ok (w, T, (0, None))) ∨
  (¬ prefilterSkips w filename ∧
   ((∃ err, disk T filename = inr err ∧
       grepFile w T filename =
       Ok (w, World_read T filename, (0, Some ("read file: " +:+ err)))) ∨
    (∃ data, disk T filename = inl data ∧
       ((∃ err, parser_parse filename data (needComments w) = inr err ∧
           grepFile w T filename =
           Ok (worker.set_fset w (fsetOf filename data),
               World_read T filename, (0, Some err))) ∨
        (∃ root, parser_parse filename data (needComments w) = inl root ∧
           ((autogenCondSkips w root ∧
             grepFile w T filename =
             Ok (worker.set_fset w (fsetOf filename data),
                 World_read T filename, (0, None))) ∨
            (¬ autogenCondSkips w root ∧
             grepFile w T filename =
             ('(w', T') ← astWalker_walk (scanStart w filename data root)
                            (World_read T filename) (File_node root);
              Ok (w', T', (worker.n w', None)))))))))).
Proof.
  unfold grepFile, prefilterSkips.
  pose proof (heatmapSkips_spec w filename) as Hheat.
  destruct (match worker.heatmapFilenameSet w with
            | Some set => bool_decide (filepath_Base filename ∉ set)
            | None => false end).
  { left. split; [left; by apply Hheat | done]. }
  pose proof (testCondSkips_spec w filename) as Htest.
  destruct (bool_decide (testCond (worker.filterHints w) ≠ bool3unset) &&
            negb (bool3_Eq (testCond (worker.filterHints w))
                    (strings_HasSuffix filename "_test.go"))).
  { left. split; [right; by apply Htest | done]. }
  right. split.
  { intros [Hs | Hs]; [apply Hheat in Hs | apply Htest in Hs]; done. }
  unfold os_ReadFile. destruct (disk T filename) as [data|err].
  2: { left. by exists err. }
  right. exists data. split; [done |].
  rewrite parseFile_spec. simpl.
  change (FileSet_AddFile NewFileSet filename (len data) (lineStarts data))
    with (fsetOf filename data).
  change (needComments (worker.set_fset w NewFileSet)) with (needComments w).
  destruct (parser_parse filename data (needComments w)) as [root|err].
  2: { left. exists err. split; [done |]. by destruct w. }
  right. exists root. split; [done |].
  pose proof (autogenCondSkips_spec w root) as Hauto.
  destruct (bool_decide (autogenCond (worker.filterHints w) ≠ bool3unset) &&
            negb (bool3_Eq (autogenCond (worker.filterHints w))
                    (isAutogenFile root))).
  - left. split; [by apply Hauto |]. by destruct w.
  - right. split; [intros Hs; by apply Hauto in Hs |].
    unfold scanStart. by destruct w.
Qed.
End Paths.

(** ** Early returns *)

Section EarlyReturns.
Context `{Env}.

Lemma walk_reads w T root w' T' :
  astWalker_walk w T root = Ok (w', T') → reads T' = reads T.
Proof.
  unfold astWalker_walk. intros Hw.
  apply visitAll_handled in Hw as (_ & _ & Hr & _). exact Hr.
Qed.

(** C5. A file the Eligibility Prefilter skips (a heat map file name set is
    configured and the base name is not in it, or the test condition is set
    and differs from the test-suffix status of the name) gives the count 0
    and no error, with the worker and the world as they were: nothing is
    read.  An absent set never skips, an unset test condition never skips,
    and a file that is not skipped is read. *)
Theorem prefilter_skip_reads_nothing (w : worker.t) (T : World)
    (filename : string) :
  (prefilterSkips w filename →
   grepFile w T filename = Ok (w, T, (0, None))) ∧
  (worker.heatmapFilenameSet w = None → ¬ heatmapSkips w filename) ∧
  (testCond (worker.filterHints w) = bool3unset →
   ¬ testCondSkips w filename) ∧
  (¬ prefilterSkips w filename →
   ∀ w' T' r, grepFile w T filename = Ok (w', T', r) →
              reads T' = reads T ++ [filename]).
Proof.
  split; [| split; [| split]].
  - intros Hskip.
    destruct (grepFile_paths w T filename) as [[_ Hg] | [Hn _]]; done.
  - intros Hnone (set & Hset & _). congruence.
  - intros Hunset [Hset _]. done.
  - intros Hn w' T' r.
    destruct (grepFile_paths w T filename) as [[Hs _] | [_ Hpath]]; [done |].
    destruct Hpath as [(err & _ & ->) | (data & _ & Hpath)].
    { by intros [= <- <- <-]. }
    destruct Hpath as [(err & _ & ->) | (root & _ & Hpath)].
    { by intros [= <- <- <-]. }
    destruct Hpath as [(_ & ->) | (_ & ->)].
    { by intros [= <- <- <-]. }
    intros Hb. apply bind_Ok in Hb as ([w1 T1] & Hwalk & [= <- <- <-]).
    by apply walk_reads in Hwalk.
Qed.

Lemma agreeUpToFset_refl r : agreeUpToFset r r.
Proof.
  destruct r as [[[w T] v]|msg]; simpl; [| done].
  split; [by destruct w | done].
Qed.

(** The position table a worker carries into [grepFile] does not matter:
    it is replaced before it is read. *)
Lemma grepFile_fset_irrelevant w fs T filename :
  agreeUpToFset (grepFile (worker.set_fset w fs) T filename)
                (grepFile w T filename).
Proof.
  unfold grepFile.
  change (worker.heatmapFilenameSet (worker.set_fset w fs))
    with (worker.heatmapFilenameSet w).
  change (worker.filterHints (worker.set_fset w fs))
    with (worker.filterHints w).
  destruct (match worker.heatmapFilenameSet w with
            | Some set => bool_decide (filepath_Base filename ∉ set)
            | None => false end).
  { simpl. split; [by destruct w | done]. }
  destruct (bool_decide (testCond (worker.filterHints w) ≠ bool3unset) &&
            negb (bool3_Eq (testCond (worker.filterHints w))
                    (strings_HasSuffix filename "_test.go"))).
  { simpl. split; [by destruct w | done]. }
  destruct (os_ReadFile T filename) as [T1 [data|err]].
  2: { simpl. split; [by destruct w | done]. }
  change (worker.set_fset (worker.set_fset w fs) NewFileSet)
    with (worker.set_fset w NewFileSet).
  apply agreeUpToFset_refl.
Qed.

(** C7. When the bytes of a file fail to parse, [grepFile] returns the
    count 0 and the parser's diagnostic as the error; no match is appended;
    and scanning any other file afterwards gives what it would have given
    without this call, up to the position table left in the worker. *)
Theorem parse_error_returns_diagnostic (w : worker.t) (T : World)
    (filename : string) (data : list byte) (diag : string) :
  ¬ prefilterSkips w filename →
  disk T filename = inl data →
  parser_parse filename data (needComments w) = inr diag →
  ∃ w',
    grepFile w T filename = Ok (w', World_read T filename, (0, Some diag)) ∧
    worker.matches w' = worker.matches w ∧
    ∀ T2 filename2,
      agreeUpToFset (grepFile w' T2 filename2) (grepFile w T2 filename2).
Proof.
  intros Hn Hdisk Hparse.
  exists (worker.set_fset w (fsetOf filename data)).
  split; [| split; [done | intros; apply grepFile_fset_irrelevant]].
  destruct (grepFile_paths w T filename) as [[Hs _] | [_ Hpath]]; [done |].
  destruct Hpath as [(err & Hd & _) | (data' & Hd & Hpath)]; [congruence |].
  assert (data' = data) as -> by congruence.
  destruct Hpath as [(err & Hp & ->) | (root & Hp & _)]; congruence.
Qed.

(** C10. On each of the five early returns of [grepFile] (heat map skip,
    test condition mismatch, read error, parse error, autogeneration
    condition mismatch) the count is 0 and the worker keeps its matches,
    its errors and the scratch fields data, filename and pkgName; the only
    field that may differ is the position table, and it does not differ
    when the file was skipped or could not be read. *)
Theorem early_return_keeps_worker (w : worker.t) (T : World)
    (filename : string) :
  returnsEarly w T filename →
  ∃ w' T' err,
    grepFile w T filename = Ok (w', T', (0, err)) ∧
    worker.matches w' = worker.matches w ∧
    worker.errors w' = worker.errors w ∧
    worker.data w' = worker.data w ∧
    worker.filename w' = worker.filename w ∧
    worker.pkgName w' = worker.pkgName w ∧
    w' = worker.set_fset w (worker.fset w') ∧
    (prefilterSkips w filename ∨ (∃ e, disk T filename = inr e) → w' = w).
Proof.
  intros Hearly.
  assert (Hid : w = worker.set_fset w (worker.fset w)) by (by destruct w).
  destruct (grepFile_paths w T filename) as [[Hs Hg] | [Hn Hpath]].
  { exists w, T, None. by repeat split. }
  destruct Hpath as [(err & Hd & Hg) | (data & Hd & Hpath)].
  { exists w, (World_read T filename), (Some ("read file: " +:+ err)).
    by repeat split. }
  assert (Hset : ∀ fs, prefilterSkips w filename ∨
                       (∃ e, disk T filename = inr e) →
                       worker.set_fset w fs = w).
  { intros fs [Hs | [e He]]; [done | congruence]. }
  destruct Hpath as [(err & Hp & Hg) | (root & Hp & Hpath)].
  { exists (worker.set_fset w (fsetOf filename data)),
      (World_read T filename), (Some err).
    split; [done |]. repeat split; try done. apply Hset. }
  destruct Hpath as [(Hs & Hg) | (Hns & _)].
  { exists (worker.set_fset w (fsetOf filename data)),
      (World_read T filename), None.
    split; [done |]. repeat split; try done. apply Hset. }
  exfalso. destruct Hearly as [Hs | [(e & He) | (data' & Hd' & Hrest)]];
    [done | congruence |].
  assert (data' = data) as -> by congruence.
  destruct Hrest as [(e & He) | (root' & Hr' & Hs)]; [congruence |].
  assert (root' = root) as -> by congruence. done.
Qed.
End EarlyReturns.

(** ** The match materializer *)

Section Materializer.
Context `{Env}.

Lemma Position_fsetOf_Offset filename data p :
  Offset (FileSet_Position (fsetOf filename data) p) =
  if bool_decide (inFile (len data) p) then p - 1 else 0.
Proof.
  unfold FileSet_Position, FileSet_file, fsetOf, FileSet_AddFile, NewFileSet,
    tokenFile_holds, inFile, NoPos. simpl.
  destruct (Z.eqb_spec p 0) as [-> | Hp].
  - rewrite bool_decide_eq_false_2 by lia. done.
  - destruct (Z.leb_spec 1 p), (Z.leb_spec p (1 + len data)); simpl;
      first [ rewrite bool_decide_eq_true_2 by lia
            | rewrite bool_decide_eq_false_2 by lia ]; done.
Qed.

Lemma Position_fsetOf_Offset_range filename data p :
  0 ≤ Offset (FileSet_Position (fsetOf filename data) p) ≤ len data.
Proof.
  rewrite Position_fsetOf_Offset. pose proof (len_nonneg data).
  case_bool_decide as Hin; [unfold inFile in Hin |]; lia.
Qed.

(** The offsets of an ordered node form a valid range of the file. *)
Lemma nodeOrdered_validRange filename data n :
  nodeOrdered (len data) n →
  validRange (len data)
    (Offset (FileSet_Position (fsetOf filename data) (Node_Pos n)))
    (Offset (FileSet_Position (fsetOf filename data) (Node_End n))).
Proof.
  intros Hord. unfold validRange.
  pose proof (Position_fsetOf_Offset_range filename data (Node_End n)) as He.
  rewrite (Position_fsetOf_Offset filename data (Node_Pos n)).
  case_bool_decide as Hpos.
  - destruct (Hord Hpos) as [Hle Hend].
    rewrite Position_fsetOf_Offset, bool_decide_eq_true_2 by done.
    unfold inFile in *. lia.
  - lia.
Qed.

Lemma initMatchText_keeps w m startPos endPos m' :
  initMatchText w m startPos endPos = Ok m' →
  Match.filename m' = Match.filename m ∧
  Match.line m' = Match.line m ∧
  Match.startOffset m' = Match.startOffset m ∧
  Match.endOffset m' = Match.endOffset m ∧
  Match.capture m' = Match.capture m.
Proof.
  unfold initMatchText. destruct (negb (worker.needMatchLine w)).
  - intros Hb. apply bind_Ok in Hb as (bs & _ & [= <-]). done.
  - intros Hb. apply bind_Ok in Hb as (start & _ & Hb).
    apply bind_Ok in Hb as (end_ & _ & Hb).
    apply bind_Ok in Hb as (bs & _ & [= <-]). done.
Qed.

(** Without line expansion the text is the slice of the data between the
    two offsets, and the matched range is the whole text. *)
Lemma initMatchText_plain w m startPos endPos m' :
  worker.needMatchLine w = false →
  initMatchText w m startPos endPos = Ok m' →
  ∃ bs, slice (worker.data w) startPos endPos = Ok bs ∧
        Match.text m' = string_of_list_byte bs ∧
        Match.matchStartOffset m' = 0 ∧
        Match.matchLength m' = Z.of_nat (String.length (Match.text m')).
Proof.
  unfold initMatchText. intros ->. simpl.
  intros Hb. apply bind_Ok in Hb as (bs & Hs & [= <-]).
  exists bs. done.
Qed.

Lemma initMatchText_plain_Ok w m startPos endPos :
  worker.needMatchLine w = false →
  validRange (len (worker.data w)) startPos endPos →
  is_Ok (initMatchText w m startPos endPos).
Proof.
  unfold initMatchText, slice, validRange. intros -> (? & ? & ?). simpl.
  destruct (Z.leb_spec 0 startPos), (Z.leb_spec startPos endPos),
    (Z.leb_spec endPos (len (worker.data w))); simpl; done || lia.
Qed.

Lemma materialize_offsets w d m :
  materialize w d = Ok m →
  Match.startOffset m =
    Offset (FileSet_Position (worker.fset w) (Node_Pos (gogrep.md_Node d))) ∧
  Match.endOffset m =
    Offset (FileSet_Position (worker.fset w) (Node_End (gogrep.md_Node d))) ∧
  Match.capture m =
    if worker.needCapture w
    then map (fun c =>
                {| capturedNode.startOffset :=
                     Offset (FileSet_Position (worker.fset w)
                               (Node_Pos (gogrep.cn_Node c)));
                   capturedNode.endOffset :=
                     Offset (FileSet_Position (worker.fset w)
                               (Node_End (gogrep.cn_Node c)));
                   capturedNode.data := c |})
             (gogrep.md_Capture d)
    else [].
Proof.
  unfold materialize. intros Hm.
  apply initMatchText_keeps in Hm as (_ & _ & -> & -> & ->).
  by destruct (worker.needCapture w).
Qed.

Lemma materialize_plain w d m :
  worker.needMatchLine w = false →
  materialize w d = Ok m →
  ∃ bs, slice (worker.data w) (Match.startOffset m) (Match.endOffset m)
        = Ok bs ∧
        Match.text m = string_of_list_byte bs ∧
        Match.matchStartOffset m = 0 ∧
        Match.matchLength m = Z.of_nat (String.length (Match.text m)).
Proof.
  intros Hline Hm.
  destruct (materialize_offsets _ _ _ Hm) as (-> & -> & _).
  unfold materialize in Hm. by eapply initMatchText_plain.
Qed.

Lemma materialize_in_bounds w filename data d m :
  worker.fset w = fsetOf filename data →
  hitOrdered (len data) d →
  materialize w d = Ok m →
  matchInBounds (len data) m.
Proof.
  intros Hfset [Hnode Hcaps] Hm.
  destruct (materialize_offsets _ _ _ Hm) as (Hs & He & Hc).
  unfold matchInBounds. rewrite Hs, He, Hc, Hfset. split.
  - by apply nodeOrdered_validRange.
  - destruct (worker.needCapture w); [| constructor].
    apply Forall_map. eapply Forall_impl; [exact Hcaps |].
    intros c Hc'. simpl. by apply nodeOrdered_validRange.
Qed.

(** What a call of [grepFile] that returns has done: nothing to the
    matches, with the count 0; or the walk of the parsed tree, which
    appended the materialization of some of the hits along the tree. *)
Lemma grepFile_summary w T filename w' T' cnt err :
  grepFile w T filename = Ok (w', T', (cnt, err)) →
  (worker.matches w' = worker.matches w ∧ cnt = 0 ∧
   w' = worker.set_fset w (worker.fset w')) ∨
  (∃ data root,
     disk T filename = inl data ∧
     parser_parse filename data (needComments w) = inl root ∧
     err = None ∧ cnt = worker.n w' ∧
     handled (scanStart w filename data root) (World_read T filename) w' T'
       (hitsAlong (worker.m w) (worker.gogrepState w)
          (preorder (File_node root)))).
Proof.
  assert (Hid : w = worker.set_fset w (worker.fset w)) by (by destruct w).
  destruct (grepFile_paths w T filename) as [[_ ->] | [_ Hpath]].
  { intros [= <- <- <- <-]. by left. }
  destruct Hpath as [(e & _ & ->) | (data & Hd & Hpath)].
  { intros [= <- <- <- <-]. by left. }
  destruct Hpath as [(e & _ & ->) | (root & Hp & Hpath)].
  { intros [= <- <- <- <-]. by left. }
  destruct Hpath as [(_ & ->) | (_ & ->)].
  { intros [= <- <- <- <-]. by left. }
  intros Hb. apply bind_Ok in Hb as ([w1 T1] & Hwalk & [= <- <- <- <-]).
  right. exists data, root.
  split; [done |]. split; [done |]. split; [done |]. split; [done |].
  unfold astWalker_walk in Hwalk. apply visitAll_handled in Hwalk.
  exact Hwalk.
Qed.
End Materializer.

Section MaterializerClaims.
Context `{Env}.

(** C2. With line expansion disabled, every match a call of [grepFile]
    appends has as its text exactly the bytes of the file between its
    start and end offsets, the offset 0 for the matched range and the
    length of the text as its length. *)
Theorem plain_text_is_raw_bytes (w : worker.t) (T : World)
    (filename : string) (w' : worker.t) (T' : World)
    (r : Z * option string) :
  worker.needMatchLine w = false →
  grepFile w T filename = Ok (w', T', r) →
  ∃ new,
    worker.matches w' = worker.matches w ++ new ∧
    Forall (fun m =>
      ∃ bs,
        slice (worker.data w') (Match.startOffset m) (Match.endOffset m)
        = Ok bs ∧
        Match.text m = string_of_list_byte bs ∧
        Match.matchStartOffset m = 0 ∧
        Match.matchLength m = Z.of_nat (String.length (Match.text m)))
      new.
Proof.
  intros Hline Hg. destruct r as [cnt err].
  apply grepFile_summary in Hg as [(Hm & _) | (data & root & _ & _ & _ & _ & Hh)].
  { exists []. by rewrite app_nil_r. }
  destruct Hh as (Hf & _ & _ & _ & (new & Hnew & Hall & _) & _).
  destruct (walkFrame_fields _ _ Hf) as (_ & _ & _ & _ & _ & _ & _ & Hdata & _).
  exists new. split; [exact Hnew |].
  eapply Forall_impl; [exact Hall |].
  intros m (d & _ & Hmat). rewrite Hdata.
  by apply (materialize_plain _ d).
Qed.

(** C8. When every hit the matcher reports along the parsed tree is
    ordered (a node that starts in the file ends in the file, not before
    its start; so for the captured nodes), every match a call of [grepFile]
    appends has [0 <= startOffset <= endOffset <= len(data)] for the bytes
    [data] of the file, and so has every captured node stored in it. *)
Theorem match_offsets_within_file (w : worker.t) (T : World)
    (filename : string) (data : list byte) (w' : worker.t) (T' : World)
    (r : Z * option string) :
  disk T filename = inl data →
  (∀ root d,
     parser_parse filename data (needComments w) = inl root →
     d ∈ hitsAlong (worker.m w) (worker.gogrepState w)
           (preorder (File_node root)) →
     hitOrdered (len data) d) →
  grepFile w T filename = Ok (w', T', r) →
  ∃ new,
    worker.matches w' = worker.matches w ++ new ∧
    Forall (matchInBounds (len data)) new.
Proof.
  intros Hdisk Hord Hg. destruct r as [cnt err].
  apply grepFile_summary in Hg
    as [(Hm & _) | (data' & root & Hd & Hp & _ & _ & Hh)].
  { exists []. by rewrite app_nil_r. }
  assert (data' = data) as -> by congruence.
  destruct Hh as (_ & _ & _ & _ & (new & Hnew & Hall & _) & _).
  exists new. split; [exact Hnew |].
  eapply Forall_impl; [exact Hall |].
  intros m (d & Hin & Hmat).
  apply (materialize_in_bounds (scanStart w filename data root)
           filename data d); [done | by apply (Hord root) | done].
Qed.
End MaterializerClaims.

(** ** grepFile as a preparation followed by the walk *)

Section Prepare.
Context `{Env}.

Lemma grepFile_prepare w T filename :
  grepFile w T filename =
  match prepare w T filename with
  | inl early => Ok early
  | inr (w0, T0, root) =>
      '(w', T') ← astWalker_walk w0 T0 (File_node root);
      Ok (w', T', (worker.n w', None))
  end.
Proof.
  unfold grepFile, prepare, isTestFile.
  destruct (match worker.heatmapFilenameSet w with
            | Some set => bool_decide (filepath_Base filename ∉ set)
            | None => false end); [done |].
  destruct (bool_decide (testCond (worker.filterHints w) ≠ bool3unset) &&
            negb (bool3_Eq (testCond (worker.filterHints w))
                    (strings_HasSuffix filename "_test.go"))); [done |].
  unfold os_ReadFile. destruct (disk T filename) as [data|err]; [| done].
  rewrite parseFile_spec. simpl.
  change (FileSet_AddFile NewFileSet filename (len data) (lineStarts data))
    with (fsetOf filename data).
  change (needComments (worker.set_fset w NewFileSet)) with (needComments w).
  destruct (parser_parse filename data (needComments w)) as [root|err].
  2: { by destruct w. }
  destruct (bool_decide (autogenCond (worker.filterHints w) ≠ bool3unset) &&
            negb (bool3_Eq (autogenCond (worker.filterHints w))
                    (isAutogenFile root))).
  - by destruct w.
  - unfold scanStart. by destruct w.
Qed.

(** The preparation reads neither the mode flag nor the filter expression
    nor the matches: changing them commutes with it. *)
Lemma prepare_commutes (g : worker.t → worker.t) w T filename :
  (∀ w, worker.heatmapFilenameSet (g w) = worker.heatmapFilenameSet w) →
  (∀ w, worker.filterHints (g w) = worker.filterHints w) →
  (∀ w fs, worker.set_fset (g w) fs = g (worker.set_fset w fs)) →
  (∀ w filename data root,
     scanStart (g w) filename data root = g (scanStart w filename data root)) →
  prepare (g w) T filename =
  match prepare w T filename with
  | inl (w', T', v) => inl (g w', T', v)
  | inr (w0, T0, root) => inr (g w0, T0, root)
  end.
Proof.
  intros Hheat Hhints Hfset Hstart. unfold prepare, needComments.
  rewrite Hheat, Hhints.
  destruct (match worker.heatmapFilenameSet w with
            | Some set => bool_decide (filepath_Base filename ∉ set)
            | None => false end); [done |].
  destruct (bool_decide (testCond (worker.filterHints w) ≠ bool3unset) &&
            negb (bool3_Eq (testCond (worker.filterHints w))
                    (isTestFile filename))); [done |].
  destruct (disk T filename) as [data|err]; [| done].
  destruct (parser_parse filename data _) as [root|err];
    [| by rewrite Hfset].
  destruct (bool_decide (autogenCond (worker.filterHints w) ≠ bool3unset) &&
            negb (bool3_Eq (autogenCond (worker.filterHints w))
                    (isAutogenFile root)));
    [by rewrite Hfset | by rewrite Hstart].
Qed.

Lemma prepare_inl w T filename w' T' cnt err :
  prepare w T filename = inl (w', T', (cnt, err)) →
  cnt = 0 ∧ worker.matches w' = worker.matches w ∧
  filterCalls T' = filterCalls T.
Proof.
  unfold prepare.
  repeat match goal with
         | |- context [if ?c then _ else _] => destruct c
         | |- context [match ?c with inl _ => _ | inr _ => _ end] => destruct c
         end; intros [= <- <- <- <-] || intros [=]; done.
Qed.

Lemma prepare_inr w T filename w0 T0 root :
  prepare w T filename = inr (w0, T0, root) →
  worker.n w0 = 0 ∧ worker.matches w0 = worker.matches w ∧
  worker.countMode w0 = worker.countMode w ∧
  worker.filterExpr w0 = worker.filterExpr w ∧
  worker.m w0 = worker.m w ∧
  worker.gogrepState w0 = worker.gogrepState w ∧
  filterCalls T0 = filterCalls T.
Proof.
  unfold prepare.
  repeat match goal with
         | |- context [if ?c then _ else _] => destruct c
         | |- context [match ?c with inl _ => _ | inr _ => _ end] => destruct c
         end; intros [= <- <- <-] || intros [=]; done.
Qed.
End Prepare.

(** ** Count mode and the no-op filter *)

Section CountAndFilter.
Context `{Env}.

Lemma sameScanContext_countView ms w : sameScanContext (countView ms w) w.
Proof. unfold sameScanContext, countView. by destruct w. Qed.

(** A run of the callback in full mode determines the run in count mode:
    the same hits are accepted, only the match is not built. *)
Lemma visitMatch_countView ms w T d w' T' :
  filterIgnoresMode →
  visitMatch w T d = Ok (w', T') →
  visitMatch (countView ms w) T d = Ok (countView ms w', T').
Proof.
  intros Hfilter. rewrite !visitMatch_unfold. cbv zeta.
  change (worker.filterExpr (countView ms w)) with (worker.filterExpr w).
  change (worker.countMode (countView ms w)) with true.
  rewrite (Hfilter (countView ms w) w d _ _ (sameScanContext_countView ms w)).
  destruct (negb _).
  - by intros [= <- <-].
  - destruct (worker.countMode w).
    + intros [= <- <-]. by destruct w.
    + intros Hb. apply bind_Ok in Hb as (m & _ & [= <- <-]). by destruct w.
Qed.

Lemma visitMatches_countView ms hits : ∀ w T w' T',
  filterIgnoresMode →
  visitMatches w T hits = Ok (w', T') →
  visitMatches (countView ms w) T hits = Ok (countView ms w', T').
Proof.
  induction hits as [|[st d] rest IH]; intros w T w' T' Hfilter; simpl.
  - by intros [= <- <-].
  - intros Hb. apply bind_Ok in Hb as ([w1 T1] & Hhit & Hrest).
    change (worker.set_gogrepState (countView ms w) st)
      with (countView ms (worker.set_gogrepState w st)).
    rewrite (visitMatch_countView ms _ _ _ _ _ Hfilter Hhit). simpl.
    by apply IH.
Qed.

Lemma visitAll_countView ms nodes : ∀ w T w' T',
  filterIgnoresMode →
  visitAll w T nodes = Ok (w', T') →
  visitAll (countView ms w) T nodes = Ok (countView ms w', T').
Proof.
  induction nodes as [|n rest IH]; intros w T w' T' Hfilter; simpl.
  - by intros [= <- <-].
  - intros Hb. apply bind_Ok in Hb as ([w1 T1] & Hn & Hrest).
    unfold Visit in *.
    change (worker.m (countView ms w)) with (worker.m w).
    change (worker.gogrepState (countView ms w)) with (worker.gogrepState w).
    destruct (Pattern_MatchNode (worker.m w) (worker.gogrepState w) n)
      as [hits st].
    apply bind_Ok in Hn as ([w2 T2] & Hhits & [= <- <-]).
    rewrite (visitMatches_countView ms _ _ _ _ _ Hfilter Hhits). simpl.
    change (worker.set_gogrepState (countView ms w2) st)
      with (countView ms (worker.set_gogrepState w2 st)).
    by apply IH.
Qed.

(** C1. When the filter evaluator does not look at the mode flag or at the
    matches collected so far, [grepFile] in count-only mode returns, with a
    count and the matches it had (no record is appended); and whenever
    [grepFile] in full mode returns on the same input, it returns the same
    count and error, and has appended exactly as many matches as the
    count. *)
Theorem count_mode_same_count (w : worker.t) (T : World) (filename : string) :
  filterIgnoresMode →
  ∃ wc Tc cnt err,
    grepFile (worker.set_countMode w true) T filename
    = Ok (wc, Tc, (cnt, err)) ∧
    worker.matches wc = worker.matches w ∧
    ∀ wf Tf cnt' err',
      grepFile (worker.set_countMode w false) T filename
      = Ok (wf, Tf, (cnt', err')) →
      cnt' = cnt ∧ err' = err ∧ Tf = Tc ∧
      ∃ new, worker.matches wf = worker.matches w ++ new ∧ len new = cnt.
Proof.
  intros Hfilter. rewrite !grepFile_prepare.
  rewrite (prepare_commutes (fun w => worker.set_countMode w true))
    by (intros; by destruct_all worker.t).
  rewrite (prepare_commutes (fun w => worker.set_countMode w false))
    by (intros; by destruct_all worker.t).
  destruct (prepare w T filename) as [[[w1 T1] [cnt err]] | [[w0 T0] root]] eqn:Hp.
  - apply prepare_inl in Hp as (-> & Hm & _).
    exists (worker.set_countMode w1 true), T1, 0, err.
    split; [done |]. split; [done |].
    intros wf Tf cnt' err' [= <- <- <- <-]. repeat split; try done.
    exists []. by rewrite app_nil_r.
  - apply prepare_inr in Hp as (Hn0 & Hm & _).
    unfold astWalker_walk. generalize (preorder (File_node root)) as nodes.
    intros nodes.
    destruct (visitAll_countMode_Ok nodes
                (worker.set_countMode w0 true) T0 eq_refl)
      as (wc & Tc & Hc).
    rewrite Hc. simpl.
    exists wc, Tc, (worker.n wc), None. split; [done |].
    assert (Hview : countView (worker.matches w)
                      (worker.set_countMode w0 false)
                    = worker.set_countMode w0 true).
    { unfold countView. rewrite <- Hm. by destruct w0. }
    split.
    + apply visitAll_handled in Hc as (_ & _ & _ & _ & (new & Hnew & _ & ->) & _).
      rewrite app_nil_r in Hnew. by rewrite Hnew.
    + intros wf Tf cnt' err' Hb.
      apply bind_Ok in Hb as ([w2 T2] & Hfull & [= <- <- <- <-]).
      pose proof (visitAll_countView (worker.matches w) _ _ _ _ _
                    Hfilter Hfull) as Hc'.
      rewrite Hview, Hc in Hc'. injection Hc' as -> ->.
      split; [done |]. split; [done |]. split; [done |].
      apply visitAll_handled in Hfull
        as (_ & _ & _ & _ & (new & Hnew & _ & Hlen) & _).
      simpl in Hnew, Hlen. exists new. split; [by rewrite <- Hm |].
      simpl. rewrite Hlen, Hn0. lia.
Qed.

(** C6. Under the no-op filter expression a hit is accepted whatever the
    evaluator would say, and the evaluator is not called: the callback
    counts the hit and leaves the world as it was.  Consequently, on the
    same input, the count returned with the no-op expression is at least
    the count returned with any other expression, and that scan makes no
    call to the evaluator. *)
Theorem noop_filter_never_rejects (w : worker.t) (T : World) :
  (∀ d,
     Op (worker.filterExpr w) = OpNop →
     visitMatch w T d =
     if worker.countMode w
     then Ok (worker.set_n w (worker.n w + 1), T)
     else
       m ← materialize w d;
       Ok (worker.set_matches (worker.set_n w (worker.n w + 1))
             (worker.matches w ++ [m]), T)) ∧
  (∀ filename nopExpr e wn Tn cn en wf Tf cf ef,
     Op nopExpr = OpNop →
     grepFile (worker.set_filterExpr w nopExpr) T filename
     = Ok (wn, Tn, (cn, en)) →
     grepFile (worker.set_filterExpr w e) T filename
     = Ok (wf, Tf, (cf, ef)) →
     cf ≤ cn ∧ filterCalls Tn = filterCalls T).
Proof.
  split.
  - intros d Hop. rewrite visitMatch_unfold. cbv zeta.
    by rewrite bool_decide_eq_true_2.
  - intros filename nopExpr e wn Tn cn en wf Tf cf ef Hop.
    rewrite !grepFile_prepare.
    rewrite (prepare_commutes (fun w => worker.set_filterExpr w nopExpr))
      by (intros; by destruct_all worker.t).
    rewrite (prepare_commutes (fun w => worker.set_filterExpr w e))
      by (intros; by destruct_all worker.t).
    destruct (prepare w T filename)
      as [[[w1 T1] [cnt err]] | [[w0 T0] root]] eqn:Hp.
    + apply prepare_inl in Hp as (-> & _ & HT1).
      intros [= <- <- <- <-] [= <- <- <- <-]. done.
    + apply prepare_inr in Hp as (Hn0 & _ & _ & _ & _ & _ & HT0).
      unfold astWalker_walk. generalize (preorder (File_node root)) as nodes.
      intros nodes Hbn Hbf.
      apply bind_Ok in Hbn as ([w2 T2] & Hnop & [= <- <- <- <-]).
      apply bind_Ok in Hbf as ([w3 T3] & Hfil & [= <- <- <- <-]).
      apply visitAll_handled in Hnop as (_ & _ & _ & _ & _ & Hall).
      apply visitAll_handled in Hfil as (_ & _ & _ & Hle & _).
      destruct (Hall Hop) as [Hcount ->]. simpl in *.
      split; [lia | done].
Qed.
End CountAndFilter.

(** ** Text extraction *)

Section NodeText.
Context `{Env}.

Lemma slice_Ok src lo hi :
  0 ≤ lo ≤ hi ∧ hi ≤ len src →
  slice src lo hi = Ok (take (Z.to_nat (hi - lo)) (drop (Z.to_nat lo) src)).
Proof.
  intros [[Hlo Hmid] Hhi]. unfold slice.
  destruct (Z.leb_spec 0 lo), (Z.leb_spec lo hi), (Z.leb_spec hi (len src));
    simpl; done || lia.
Qed.

(** C9. [nodeText] gives no bytes for an empty node slice.  For any other
    node it gives the slice of the file's bytes between the node's two
    offsets exactly when both offsets fall in [0, len(bytes)); otherwise a
    comment gives its stored text, and any other node gives what the
    printer writes, a printer error being a panic. *)
Theorem nodeText_paths (w : worker.t) (n : Node) :
  let from := Offset (FileSet_Position (worker.fset w) (Node_Pos n)) in
  let to := Offset (FileSet_Position (worker.fset w) (Node_End n)) in
  let src := worker.data w in
  let inRange := (0 ≤ from < len src) ∧ (0 ≤ to < len src) in
  (IsEmptyNodeSlice n = true → nodeText w n = Ok []) ∧
  (IsEmptyNodeSlice n = false → inRange →
   nodeText w n = slice src from to ∧
   (from ≤ to →
    nodeText w n =
    Ok (take (Z.to_nat (to - from)) (drop (Z.to_nat from) src)))) ∧
  (IsEmptyNodeSlice n = false → ¬ inRange →
   match n with
   | CommentNode c => nodeText w n = Ok (list_byte_of_string (Text c))
   | _ =>
       match printer_Fprint (worker.fset w) n with
       | inl buf => nodeText w n = Ok buf
       | inr err => nodeText w n = Panic err
       end
   end).
Proof.
  intros from to src inRange. unfold nodeText.
  fold from to src.
  split; [by intros -> |]. split.
  - intros -> [[Hf0 Hf1] [Ht0 Ht1]].
    assert (Hcond : ((0 <=? from) && (from <? len src)) &&
                    ((0 <=? to) && (to <? len src)) = true).
    { destruct (Z.leb_spec 0 from), (Z.ltb_spec from (len src)),
        (Z.leb_spec 0 to), (Z.ltb_spec to (len src)); simpl; done || lia. }
    rewrite Hcond. split; [done |].
    intros Hle. apply slice_Ok. lia.
  - intros Hne Hout. rewrite Hne.
    assert (Hcond : ((0 <=? from) && (from <? len src)) &&
                    ((0 <=? to) && (to <? len src)) = false).
    { destruct (Z.leb_spec 0 from), (Z.ltb_spec from (len src)),
        (Z.leb_spec 0 to), (Z.ltb_spec to (len src)); simpl; try done.
      exfalso. apply Hout. unfold inRange. lia. }
    rewrite Hcond.
    destruct n as [|c|p e children]; [discriminate Hne | done |].
    by destruct (printer_Fprint _ _).
Qed.
End NodeText.

(** ** Line expansion *)

Section LineExpansion.
Context `{Env}.

Lemma index_lookup data i b :
  data !! i = Some b → index data (Z.of_nat i) = Ok b.
Proof.
  intros Hb. unfold index, len.
  pose proof (lookup_lt_Some _ _ _ Hb).
  destruct (Z.leb_spec 0 (Z.of_nat i)), (Z.ltb_spec (Z.of_nat i)
    (Z.of_nat (length data))); simpl; try lia.
  by rewrite Nat2Z.id, Hb.
Qed.

(** The forward loop stops at the nearest newline at or after [endPos]. *)
Lemma expandEnd_loop_spec data k :
  (k ≤ length data)%nat →
  expandEnd_loop data k =
  Ok (lineEndFrom (drop (length data - k) data) (len data - Z.of_nat k)).
Proof.
  induction k as [|k IH]; intros Hk.
  - simpl. rewrite Nat.sub_0_r, drop_all. simpl. f_equal. lia.
  - cbn [expandEnd_loop].
    destruct (lookup_lt_is_Some_2 data (length data - S k)) as [b Hb]; [lia |].
    assert (Hidx : len data - Z.of_nat (S k) = Z.of_nat (length data - S k))
      by (unfold len; lia).
    rewrite Hidx, (index_lookup _ _ _ Hb). simpl.
    rewrite (drop_S _ _ _ Hb). simpl.
    destruct (isNewline b); [done |].
    rewrite IH by lia.
    replace (S (length data - S k)) with (length data - k)%nat by lia.
    do 2 f_equal. lia.
Qed.

Lemma expandEnd_lineEnd data endPos :
  0 ≤ endPos ≤ len data → expandEnd data endPos = Ok (lineEnd data endPos).
Proof.
  intros [Hlo Hhi]. unfold expandEnd, lineEnd.
  destruct (Z.ltb_spec endPos (len data)).
  - rewrite expandEnd_loop_spec by (unfold len in *; lia).
    unfold len in *.
    replace (length data - Z.to_nat (Z.of_nat (length data) - endPos))%nat
      with (Z.to_nat endPos) by lia.
    do 2 f_equal. lia.
  - assert (endPos = len data) as -> by lia.
    unfold len. by rewrite Nat2Z.id, drop_all.
Qed.

(** The backward loop, started below [startPos], stops after the nearest
    newline it meets; it does not look at byte 0. *)
Lemma expandStart_loop_spec data startPos k :
  (k < length data)%nat → Z.of_nat k < startPos →
  (∀ b, data !! 0%nat = Some b → isNewline b = false) →
  expandStart_loop data startPos k = Ok (lineStartBefore data (S k)).
Proof.
  intros Hk Hlt Hzero. induction k as [|k IH].
  - simpl. destruct (data !! 0%nat) as [b|] eqn:Hb; [| done].
    by rewrite (Hzero b).
  - cbn [expandStart_loop lineStartBefore].
    destruct (lookup_lt_is_Some_2 data (S k)) as [b Hb]; [lia |].
    rewrite (index_lookup _ _ _ Hb), Hb. simpl.
    destruct (isNewline b).
    + rewrite bool_decide_eq_true_2 by lia. f_equal. lia.
    + rewrite IH by lia. done.
Qed.

(** Where the claim of the specification holds: the match starts inside
    the data, not on a newline byte, and byte 0 is not a newline. *)
Lemma expandStart_lineStart data startPos :
  0 ≤ startPos < len data →
  (∀ b, data !! Z.to_nat startPos = Some b → isNewline b = false) →
  (∀ b, data !! 0%nat = Some b → isNewline b = false) →
  expandStart data startPos = Ok (lineStart data startPos).
Proof.
  intros [Hs0 Hs1] Hat Hzero. unfold expandStart, lineStart.
  destruct (Z.ltb_spec 0 startPos); [| by assert (startPos = 0) as -> by lia].
  destruct (Z.to_nat startPos) as [|k] eqn:Hk; [lia |].
  cbn [expandStart_loop].
  destruct (lookup_lt_is_Some_2 data (S k)) as [b Hb];
    [unfold len in *; lia |].
  rewrite (index_lookup _ _ _ Hb). simpl.
  rewrite (Hat b Hb).
  apply expandStart_loop_spec; [unfold len in *; lia | lia | done].
Qed.

Lemma initMatchText_line w m startPos endPos :
  worker.needMatchLine w = true →
  0 ≤ startPos < len (worker.data w) →
  0 ≤ endPos ≤ len (worker.data w) →
  (∀ b, worker.data w !! Z.to_nat startPos = Some b → isNewline b = false) →
  (∀ b, worker.data w !! 0%nat = Some b → isNewline b = false) →
  initMatchText w m startPos endPos =
  (bs ← slice (worker.data w) (lineStart (worker.data w) startPos)
         (lineEnd (worker.data w) endPos);
   Ok (setMatchText m (string_of_list_byte bs)
         (startPos - lineStart (worker.data w) startPos)
         (endPos - startPos))).
Proof.
  intros Hline Hs He Hat Hzero. unfold initMatchText. rewrite Hline. simpl.
  rewrite expandStart_lineStart, expandEnd_lineEnd by done. done.
Qed.

(** C3, at the input where the code departs from it.  The file
    "lead.go" starts with an empty line; the addition on its second line
    is at offsets 20..25.  The nearest newline before offset 20 is byte 0,
    so the line starts at offset 1; the backward loop of [initMatchText]
    runs while [start > 0], never looks at byte 0 and stops at 0.  The
    recorded text keeps the leading newline and the matched range is
    placed at offset 20 of it, not 19. *)
Theorem line_expansion_keeps_leading_newline :
  let data := Demo.bytes Demo.srcLead in
  lineStart data 20 = 1 ∧
  expandStart data 20 = Ok 0 ∧
  lineEnd data 25 = 25 ∧
  expandEnd data 25 = Ok 25 ∧
  ∃ w' T',
    grepFile
      (Demo.mkWorker false false true None Demo.plain Demo.nop Demo.isBinary)
      Demo.world "lead.go" = Ok (w', T', (1, None)) ∧
    worker.matches w' =
    [ {| Match.filename := "lead.go"; Match.line := 2;
         Match.startOffset := 20; Match.endOffset := 25;
         Match.capture := [];
         Match.text := Demo.srcLead;
         Match.matchStartOffset := 20; Match.matchLength := 5 |} ].
Proof.
  cbv zeta. split; [by vm_compute |]. split; [by vm_compute |].
  split; [by vm_compute |]. split; [by vm_compute |].
  eexists _, _. split; [vm_compute; reflexivity | vm_compute; reflexivity].
Qed.
End LineExpansion.

(** ** When the scan returns

    The only panics of a scan are those of [initMatchText]; in count mode
    there is none (see [visitAll_countMode_Ok]), and in full mode there is
    none when the hits along the tree are ordered and, under line
    expansion, none of them starts at the end of the data. *)

Section Returns.
Context `{Env}.

Lemma visitMatch_Ok w T d :
  is_Ok (materialize w d) → is_Ok (visitMatch w T d).
Proof.
  rewrite visitMatch_unfold. cbv zeta. intros Hm.
  destruct (negb _); [done |]. destruct (worker.countMode w); [done |].
  by destruct (materialize w d).
Qed.

Lemma visitMatches_Ok hits : ∀ w T,
  (∀ d, d ∈ map snd hits → is_Ok (materialize w d)) →
  is_Ok (visitMatches w T hits).
Proof.
  induction hits as [|[st d] rest IH]; intros w T Hall; simpl; [done |].
  pose proof (visitMatch_Ok (worker.set_gogrepState w st) T d) as Hhit.
  destruct (visitMatch (worker.set_gogrepState w st) T d)
    as [[w1 T1]|msg] eqn:Hv.
  - simpl. apply IH. intros d' Hd'.
    apply visitMatch_handled in Hv as [Hf _].
    rewrite (materialize_frame (worker.set_gogrepState w st) w1) by done.
    apply (Hall d'). simpl. by right.
  - apply Hhit. apply (Hall d). simpl. by left.
Qed.

Lemma visitAll_Ok nodes : ∀ w T,
  (∀ d, d ∈ hitsAlong (worker.m w) (worker.gogrepState w) nodes →
        is_Ok (materialize w d)) →
  is_Ok (visitAll w T nodes).
Proof.
  induction nodes as [|n rest IH]; intros w T Hall; simpl; [done |].
  simpl in Hall.
  destruct (Visit w T n) as [[w1 T1]|msg] eqn:Hv.
  - simpl. apply IH. intros d Hd.
    apply Visit_handled in Hv as [[Hf _] Hst].
    destruct (walkFrame_fields _ _ Hf) as (_ & _ & _ & _ & Hm & _).
    rewrite Hm, Hst in Hd.
    rewrite (materialize_frame w w1) by done. apply Hall.
    destruct (Pattern_MatchNode (worker.m w) (worker.gogrepState w) n).
    apply elem_of_app. by right.
  - unfold Visit in Hv.
    destruct (Pattern_MatchNode (worker.m w) (worker.gogrepState w) n)
      as [hits st].
    pose proof (visitMatches_Ok hits w T) as Hhits.
    destruct (visitMatches w T hits) as [[w2 T2]|msg'];
      [discriminate Hv |].
    apply Hhits. intros d Hd. apply Hall. apply elem_of_app. by left.
Qed.

Lemma lineEndFrom_bounds rest pos :
  pos ≤ lineEndFrom rest pos ≤ pos + len rest.
Proof.
  revert pos. induction rest as [|b rest IH]; intros pos; simpl.
  - change (len (@nil byte)) with 0. lia.
  - replace (len (b :: rest)) with (1 + len rest)
      by (unfold len; simpl; lia).
    destruct (isNewline b); [pose proof (len_nonneg rest); lia |].
    specialize (IH (pos + 1)). lia.
Qed.

Lemma expandEnd_bounds data endPos :
  0 ≤ endPos ≤ len data →
  ∃ end_, expandEnd data endPos = Ok end_ ∧ endPos ≤ end_ ≤ len data.
Proof.
  intros Hr. exists (lineEnd data endPos).
  split; [by apply expandEnd_lineEnd |].
  unfold lineEnd.
  pose proof (lineEndFrom_bounds (drop (Z.to_nat endPos) data) endPos) as Hb.
  unfold len in *. rewrite length_drop in Hb. lia.
Qed.

Lemma expandStart_loop_bounds data startPos k :
  (k < length data)%nat → Z.of_nat k ≤ startPos →
  ∃ start, expandStart_loop data startPos k = Ok start ∧ 0 ≤ start ≤ startPos.
Proof.
  intros Hk Hle. induction k as [|k IH]; simpl.
  - exists 0. split; [done | lia].
  - destruct (lookup_lt_is_Some_2 data (S k)) as [b Hb]; [lia |].
    change (Z.pos (Pos.of_succ_nat k)) with (Z.of_nat (S k)).
    rewrite (index_lookup _ _ _ Hb). simpl.
    destruct (isNewline b).
    + eexists. split; [reflexivity |]. case_bool_decide; lia.
    + apply IH; lia.
Qed.

Lemma expandStart_bounds data startPos :
  startPos = 0 ∨ 0 ≤ startPos < len data →
  ∃ start, expandStart data startPos = Ok start ∧ 0 ≤ start ≤ startPos.
Proof.
  intros Hr. unfold expandStart.
  destruct (Z.ltb_spec 0 startPos); [| exists startPos; split; [done | lia]].
  apply expandStart_loop_bounds; unfold len in *; lia.
Qed.

(** The materialization of an ordered hit succeeds: always without line
    expansion, and under line expansion unless the hit starts at the end
    of non-empty data (where the backward loop indexes out of range). *)
Lemma materialize_Ok w filename data d :
  worker.fset w = fsetOf filename data →
  worker.data w = data →
  nodeOrdered (len data) (gogrep.md_Node d) →
  (worker.needMatchLine w = true →
   Node_Pos (gogrep.md_Node d) = 1 + len data → len data = 0) →
  is_Ok (materialize w d).
Proof.
  intros Hfset Hdata Hord Hstart. unfold materialize. rewrite Hfset.
  pose proof (nodeOrdered_validRange filename data _ Hord) as Hrange.
  pose proof (Position_fsetOf_Offset filename data
                (Node_Pos (gogrep.md_Node d))) as Hoff.
  set (s := Offset (FileSet_Position (fsetOf filename data)
                      (Node_Pos (gogrep.md_Node d)))) in *.
  set (e := Offset (FileSet_Position (fsetOf filename data)
                      (Node_End (gogrep.md_Node d)))) in *.
  match goal with |- is_Ok (initMatchText w ?m s e) => generalize m end.
  intros m. destruct (worker.needMatchLine w) eqn:Hline.
  - unfold initMatchText. rewrite Hline, Hdata. simpl.
    unfold validRange in Hrange.
    destruct (expandStart_bounds data s) as (s' & -> & Hs').
    { case_bool_decide as Hin; [| by left].
      unfold inFile in Hin. pose proof (Hstart eq_refl). lia. }
    destruct (expandEnd_bounds data e) as (e' & -> & He'); [lia |].
    simpl. rewrite slice_Ok by lia. done.
  - apply initMatchText_plain_Ok; [done | by rewrite Hdata].
Qed.

Lemma grepFile_Ok w T filename :
  (∀ data root d,
     disk T filename = inl data →
     parser_parse filename data (needComments w) = inl root →
     d ∈ hitsAlong (worker.m w) (worker.gogrepState w)
           (preorder (File_node root)) →
     nodeOrdered (len data) (gogrep.md_Node d) ∧
     (worker.needMatchLine w = true →
      Node_Pos (gogrep.md_Node d) = 1 + len data → len data = 0)) →
  is_Ok (grepFile w T filename).
Proof.
  intros Hhits.
  destruct (grepFile_paths w T filename) as [[_ ->] | [_ Hpath]]; [done |].
  destruct Hpath as [(e & _ & ->) | (data & Hd & Hpath)]; [done |].
  destruct Hpath as [(e & _ & ->) | (root & Hp & Hpath)]; [done |].
  destruct Hpath as [(_ & ->) | (_ & ->)]; [done |].
  unfold astWalker_walk.
  pose proof (visitAll_Ok (preorder (File_node root))
                (scanStart w filename data root) (World_read T filename))
    as Hwalk.
  destruct (visitAll _ _ _) as [[w1 T1]|msg]; [done |].
  apply Hwalk. intros d Hd'.
  destruct (Hhits data root d Hd Hp Hd') as [Hord Hstart].
  by apply (materialize_Ok _ filename data).
Qed.
End Returns.

(** ** The theorems at concrete inputs *)

Section Witnesses.
Import Demo.

Lemma demo_filterIgnoresMode : filterIgnoresMode.
Proof. intros w1 w2 d e n _. reflexivity. Defined.

Lemma demo_plain_not_skipped count capture line e pat filename :
  ¬ prefilterSkips (mkWorker count capture line None plain e pat) filename.
Proof.
  intros [(set & Hset & _) | [Hcond _]]; [discriminate Hset |].
  by apply Hcond.
Defined.

(** "add.go" scanned for every node with a width filter, in both modes:
    four hits pass the filter. *)
Lemma count_mode_same_count_witness :
  filterIgnoresMode ∧
  (∃ wf Tf,
     grepFile (mkWorker false true true None plain (DemoMinWidth, 2) anyNode)
       world "add.go" = Ok (wf, Tf, (4, None))) ∧
  ∃ wc Tc cnt err,
    grepFile
      (worker.set_countMode
         (mkWorker false true true None plain (DemoMinWidth, 2) anyNode) true)
      world "add.go" = Ok (wc, Tc, (cnt, err)) ∧
    worker.matches wc = [] ∧
    ∀ wf Tf cnt' err',
      grepFile
        (worker.set_countMode
           (mkWorker false true true None plain (DemoMinWidth, 2) anyNode)
           false)
        world "add.go" = Ok (wf, Tf, (cnt', err')) →
      cnt' = cnt ∧ err' = err ∧ Tf = Tc ∧
      ∃ new, worker.matches wf = [] ++ new ∧ len new = cnt.
Proof.
  split; [exact demo_filterIgnoresMode |].
  split; [eexists _, _; vm_compute; reflexivity |].
  exact (count_mode_same_count
           (mkWorker false true true None plain (DemoMinWidth, 2) anyNode)
           world "add.go" demo_filterIgnoresMode).
Defined.

(** "add.go" scanned for the binary expression without line expansion. *)
Lemma plain_text_is_raw_bytes_witness :
  ∃ w' T' r,
    grepFile (mkWorker false true false None plain nop isBinary)
      world "add.go" = Ok (w', T', r) ∧
    map Match.text (worker.matches w') = ["1 + 2"%string] ∧
    ∃ new,
      worker.matches w' = [] ++ new ∧
      Forall (fun m =>
        ∃ bs,
          slice (worker.data w') (Match.startOffset m) (Match.endOffset m)
          = Ok bs ∧
          Match.text m = string_of_list_byte bs ∧
          Match.matchStartOffset m = 0 ∧
          Match.matchLength m = Z.of_nat (String.length (Match.text m)))
        new.
Proof.
  eexists _, _, _.
  split; [vm_compute; reflexivity |]. split; [reflexivity |].
  eapply (plain_text_is_raw_bytes
            (mkWorker false true false None plain nop isBinary)
           world "add.go"); [reflexivity | vm_compute; reflexivity].
Defined.

(** "dir/add_test.go" with the heat map set {"add.go"}: skipped. *)
Lemma prefilter_skip_reads_nothing_witness :
  prefilterSkips
    (mkWorker false true false (Some {["add.go"%string]}) plain nop anyNode)
    "dir/add_test.go" ∧
  grepFile
    (mkWorker false true false (Some {["add.go"%string]}) plain nop anyNode)
    world "dir/add_test.go"
  = Ok (mkWorker false true false (Some {["add.go"%string]}) plain nop anyNode,
        world, (0, None)).
Proof.
  assert (Hskip : prefilterSkips
    (mkWorker false true false (Some {["add.go"%string]}) plain nop anyNode)
    "dir/add_test.go").
  { left. exists {["add.go"%string]}. split; [reflexivity |].
    intros Hin%elem_of_singleton. vm_compute in Hin. discriminate Hin. }
  split; [exact Hskip |].
  exact (proj1 (prefilter_skip_reads_nothing _ world _) Hskip).
Defined.

(** "add.go" counted with the no-op filter (7 nodes) and with a width
    filter (4 nodes). *)
Lemma noop_filter_never_rejects_witness :
  ∃ wn Tn wf Tf,
    Op nop = OpNop ∧
    grepFile
      (worker.set_filterExpr
         (mkWorker true false false None plain nop anyNode) nop)
      world "add.go" = Ok (wn, Tn, (7, None)) ∧
    grepFile
      (worker.set_filterExpr
         (mkWorker true false false None plain nop anyNode) (DemoMinWidth, 2))
      world "add.go" = Ok (wf, Tf, (4, None)) ∧
    4 ≤ 7 ∧ filterCalls Tn = filterCalls world.
Proof.
  eexists _, _, _, _.
  split; [reflexivity |].
  split; [vm_compute; reflexivity |]. split; [vm_compute; reflexivity |].
  eapply (proj2 (noop_filter_never_rejects
                   (mkWorker true false false None plain nop anyNode) world)
            "add.go" nop (DemoMinWidth, 2));
    [reflexivity | vm_compute; reflexivity | vm_compute; reflexivity].
Defined.

(** "bad.go" does not parse. *)
Lemma parse_error_returns_diagnostic_witness :
  ¬ prefilterSkips (mkWorker false true true None plain nop anyNode) "bad.go" ∧
  disk world "bad.go" = inl (bytes srcBad) ∧
  parser_parse "bad.go" (bytes srcBad)
    (needComments (mkWorker false true true None plain nop anyNode))
  = inr "bad.go:1:8: expected 'IDENT', found 'EOF'"%string ∧
  ∃ w',
    grepFile (mkWorker false true true None plain nop anyNode) world "bad.go"
    = Ok (w', World_read world "bad.go",
          (0, Some "bad.go:1:8: expected 'IDENT', found 'EOF'"%string)) ∧
    worker.matches w' = [] ∧
    ∀ T2 filename2,
      agreeUpToFset
        (grepFile w' T2 filename2)
        (grepFile (mkWorker false true true None plain nop anyNode)
           T2 filename2).
Proof.
  split; [apply demo_plain_not_skipped |].
  split; [reflexivity |]. split; [reflexivity |].
  apply (parse_error_returns_diagnostic
           (mkWorker false true true None plain nop anyNode) world "bad.go"
           (bytes srcBad));
    [apply demo_plain_not_skipped | reflexivity | reflexivity].
Defined.

Lemma demo_add_hits_ordered :
  ∀ root d,
    parser_parse "add.go" (bytes srcAdd)
      (needComments (mkWorker false true true None plain nop anyNode))
    = inl root →
    d ∈ hitsAlong anyNode O (preorder (File_node root)) →
    hitOrdered (len (bytes srcAdd)) d.
Proof.
  intros root d Hroot Hd.
  assert (Hadd : parser_parse "add.go" (bytes srcAdd)
            (needComments (mkWorker false true true None plain nop anyNode))
          = inl treeAdd) by reflexivity.
  rewrite Hadd in Hroot. injection Hroot as <-.
  revert d Hd. apply Forall_forall.
  change (len (bytes srcAdd)) with 24.
  unfold hitOrdered, nodeOrdered, inFile.
  match goal with
  | |- Forall _ ?l => let l' := eval vm_compute in l in change l with l'
  end.
  repeat first [ apply Forall_nil | apply Forall_cons | split
               | progress (simpl; intros; lia) ].
Defined.

(** "add.go" scanned for every node, with captures and line expansion. *)
Lemma match_offsets_within_file_witness :
  ∃ w' T' r,
    disk world "add.go" = inl (bytes srcAdd) ∧
    grepFile (mkWorker false true true None plain nop anyNode) world "add.go"
    = Ok (w', T', r) ∧
    length (worker.matches w') = 7%nat ∧
    ∃ new,
      worker.matches w' = [] ++ new ∧
      Forall (matchInBounds (len (bytes srcAdd))) new.
Proof.
  eexists _, _, _.
  split; [reflexivity |]. split; [vm_compute; reflexivity |].
  split; [reflexivity |].
  eapply (match_offsets_within_file
            (mkWorker false true true None plain nop anyNode) world "add.go"
            (bytes srcAdd));
    [reflexivity | exact demo_add_hits_ordered | vm_compute; reflexivity].
Defined.

(** A comment whose offsets are outside the (empty) data: its text. *)
Lemma nodeText_paths_witness :
  nodeText (mkWorker false true true None plain nop anyNode)
    (CommentNode {| Slash := 1; Text := "// note" |})
  = Ok (bytes "// note").
Proof.
  apply (proj2 (proj2 (nodeText_paths
           (mkWorker false true true None plain nop anyNode)
           (CommentNode {| Slash := 1; Text := "// note" |}))));
    [reflexivity |].
  intros [[_ Hlt] _]. vm_compute in Hlt. discriminate Hlt.
Defined.

(** "gen.go" is generated and the worker asks for files that are not:
    the autogeneration condition sends [grepFile] back after parsing. *)
Lemma early_return_keeps_worker_witness :
  returnsEarly
    (mkWorker false true true None (hints bool3unset bool3false) nop anyNode)
    world "gen.go" ∧
  ∃ w' T' err,
    grepFile
      (mkWorker false true true None (hints bool3unset bool3false) nop anyNode)
      world "gen.go" = Ok (w', T', (0, err)) ∧
    worker.matches w' = [] ∧
    worker.errors w' = [] ∧
    worker.data w' = [] ∧
    worker.filename w' = EmptyString ∧
    worker.pkgName w' = EmptyString ∧
    w' = worker.set_fset
           (mkWorker false true true None (hints bool3unset bool3false)
              nop anyNode)
           (worker.fset w') ∧
    (prefilterSkips
       (mkWorker false true true None (hints bool3unset bool3false)
          nop anyNode) "gen.go" ∨
     (∃ e, disk world "gen.go" = inr e) →
     w' = mkWorker false true true None (hints bool3unset bool3false)
            nop anyNode).
Proof.
  assert (Hearly : returnsEarly
    (mkWorker false true true None (hints bool3unset bool3false) nop anyNode)
    world "gen.go").
  { right. right. exists (bytes srcGen). split; [reflexivity |].
    right. exists (treeGen true). split; [reflexivity |].
    split; [discriminate |]. vm_compute. discriminate. }
  split; [exact Hearly |].
  exact (early_return_keeps_worker _ world "gen.go" Hearly).
Defined.

(** The detector on comment groups: one group with both phrases on one
    line, in any letter case; both phrases on two lines of one group, in
    the other order; a generation phrase alone; the two phrases in two
    different groups. *)
Example isAutogenFile_examples :
  let file groups :=
    {| Package := 1; Name := "p"; Decls := []; FileEnd := 1;
       Comments := map (fun l => {| List := map (Build_Comment 1) l |}) groups |}
  in
  isAutogenFile (file [["// CODE GENERATED by x. Do Not Edit."]]) = true ∧
  isAutogenFile (file [["// don't edit"; "// this is generated by x"]]) = true ∧
  isAutogenFile (file [["// Code generated by x."]]) = false ∧
  isAutogenFile (file [["// Code generated by x."]; ["// DO NOT EDIT"]])
  = false.
Proof. vm_compute. done. Qed.

(** The scan of "add.go" for the binary expression, with line expansion:
    one match, the addition at offsets 18..23, shown in its line with the
    matched range at offset 8. *)
Example grepFile_add_example :
  ∃ w' T',
    grepFile (mkWorker false false true None plain nop isBinary)
      world "add.go" = Ok (w', T', (1, None)) ∧
    worker.matches w' =
    [ {| Match.filename := "add.go"; Match.line := 2;
         Match.startOffset := 18; Match.endOffset := 23;
         Match.capture := [];
         Match.text := "var x = 1 + 2";
         Match.matchStartOffset := 8; Match.matchLength := 5 |} ] ∧
    reads T' = ["add.go"%string].
Proof. eexists _, _. vm_compute. done. Qed.
End Witnesses.

(** ** More on initMatchText *)

Section MatchText.
Context `{Env}.

Lemma length_string_of_list_byte bs :
  String.length (string_of_list_byte bs) = length bs.
Proof. induction bs as [|b bs IH]; simpl; [done | by f_equal]. Qed.

Lemma index_Ok data i b :
  index data i = Ok b → 0 ≤ i < len data ∧ data !! Z.to_nat i = Some b.
Proof.
  unfold index.
  destruct (Z.leb_spec 0 i), (Z.ltb_spec i (len data)); simpl; try done.
  destruct (data !! Z.to_nat i) as [b'|]; [| done].
  intros [= ->]. split; [lia | done].
Qed.

Lemma index_newlineAt data i b :
  index data i = Ok b → isNewline b = true ↔ newlineAt data i.
Proof.
  intros Hi. apply index_Ok in Hi as [Hr Hb]. unfold newlineAt. split.
  - intros Hn. split; [lia |]. by exists b.
  - intros (_ & b' & Hb' & Hn). congruence.
Qed.

Lemma slice_inv data lo hi bs :
  slice data lo hi = Ok bs →
  0 ≤ lo ≤ hi ∧ hi ≤ len data ∧
  bs = take (Z.to_nat (hi - lo)) (drop (Z.to_nat lo) data).
Proof.
  unfold slice.
  destruct (Z.leb_spec 0 lo), (Z.leb_spec lo hi), (Z.leb_spec hi (len data));
    simpl; try done.
  intros [= <-]. repeat split; lia.
Qed.

Lemma slice_length data lo hi bs :
  slice data lo hi = Ok bs → len bs = hi - lo.
Proof.
  intros (Hlo & Hhi & ->)%slice_inv. unfold len in *.
  rewrite length_take, length_drop. lia.
Qed.

(** What the backward loop returns: 0 when it met no newline down to
    offset 1, and otherwise the offset after the first newline it met,
    or that newline's own offset when it is the match start. *)
Lemma expandStart_loop_inv data startPos k r :
  Z.of_nat k ≤ startPos →
  expandStart_loop data startPos k = Ok r →
  (k = O ∨ Z.of_nat k < len data) ∧
  ((r = 0 ∧ ∀ i, 1 ≤ i ≤ Z.of_nat k → ¬ newlineAt data i) ∨
   (∃ j, 1 ≤ j ≤ Z.of_nat k ∧ newlineAt data j ∧
         (∀ i, j < i ≤ Z.of_nat k → ¬ newlineAt data i) ∧
         r = if bool_decide (j ≠ startPos) then j + 1 else j)).
Proof.
  intros Hk. induction k as [|k IH]; cbn [expandStart_loop].
  - intros [= <-]. split; [by left |]. left. split; [done | lia].
  - intros Hb. apply bind_Ok in Hb as (b & Hidx & Hb).
    pose proof (index_newlineAt _ _ _ Hidx) as Hnl.
    pose proof (index_Ok _ _ _ Hidx) as [Hrange _].
    split; [right; lia |].
    destruct (isNewline b) eqn:Hb'.
    + injection Hb as <-. right. exists (Z.of_nat (S k)).
      split; [lia |]. split; [by apply Hnl |]. split; [lia | done].
    + destruct (IH ltac:(lia) Hb) as [_ [[-> Hno] | (j & Hj & Hnj & Hno & ->)]].
      * left. split; [done |]. intros i Hi.
        destruct (decide (i = Z.of_nat (S k))) as [-> | Hne].
        -- intros Hn%Hnl. congruence.
        -- apply Hno. lia.
      * right. exists j. split; [lia |]. split; [done |]. split; [| done].
        intros i Hi.
        destruct (decide (i = Z.of_nat (S k))) as [-> | Hne].
        -- intros Hn%Hnl. congruence.
        -- apply Hno. lia.
Qed.

Lemma expandStart_inv data startPos r :
  expandStart data startPos = Ok r →
  (startPos ≤ 0 ∧ r = startPos) ∨
  (0 < startPos < len data ∧
   ((r = 0 ∧ ∀ i, 1 ≤ i ≤ startPos → ¬ newlineAt data i) ∨
    (r = startPos ∧ newlineAt data startPos) ∨
    (∃ j, 1 ≤ j < startPos ∧ newlineAt data j ∧
          (∀ i, j < i ≤ startPos → ¬ newlineAt data i) ∧ r = j + 1))).
Proof.
  unfold expandStart. destruct (Z.ltb_spec 0 startPos) as [Hpos | Hneg].
  2: { intros [= <-]. by left. }
  intros Hl. apply expandStart_loop_inv in Hl as [Hlen Hl]; [| lia].
  right. split; [lia |].
  rewrite Z2Nat.id in Hl by lia.
  destruct Hl as [Hl | (j & Hj & Hnj & Hno & ->)]; [by left | right].
  case_bool_decide as Hjs.
  - right. exists j. split; [lia | done].
  - left. by subst.
Qed.

Lemma expandEnd_loop_inv data k r :
  expandEnd_loop data k = Ok r →
  0 ≤ len data - Z.of_nat k ≤ r ∧ r ≤ len data ∧
  (∀ i, len data - Z.of_nat k ≤ i < r → ¬ newlineAt data i) ∧
  (r = len data ∨ newlineAt data r).
Proof.
  induction k as [|k IH]; cbn [expandEnd_loop].
  - intros [= <-]. pose proof (len_nonneg data).
    repeat split; lia.
  - intros Hb. apply bind_Ok in Hb as (b & Hidx & Hb).
    pose proof (index_newlineAt _ _ _ Hidx) as Hnl.
    pose proof (index_Ok _ _ _ Hidx) as [Hrange _].
    destruct (isNewline b) eqn:Hb'.
    + injection Hb as <-. repeat split; try lia. right. by apply Hnl.
    + destruct (IH Hb) as (Hlo & Hhi & Hno & Hstop).
      repeat split; try lia; [| done].
      intros i Hi.
      destruct (decide (i = len data - Z.of_nat (S k))) as [-> | Hne].
      * intros Hn%Hnl. congruence.
      * apply Hno. lia.
Qed.

Lemma expandEnd_inv data endPos r :
  expandEnd data endPos = Ok r →
  (len data ≤ endPos ∧ r = endPos) ∨
  (0 ≤ endPos < len data ∧ endPos ≤ r ≤ len data ∧
   (∀ i, endPos ≤ i < r → ¬ newlineAt data i) ∧
   (r = len data ∨ newlineAt data r)).
Proof.
  unfold expandEnd. destruct (Z.ltb_spec endPos (len data)) as [Hlt | Hge].
  2: { intros [= <-]. by left. }
  intros Hl. apply expandEnd_loop_inv in Hl as (Hlo & Hhi & Hno & Hstop).
  right. assert (Z.of_nat (Z.to_nat (len data - endPos)) = len data - endPos)
    as Hk by lia.
  rewrite Hk in *. repeat split; try lia; [| done].
  intros i Hi. apply Hno. lia.
Qed.

Lemma newlineAt_index data i :
  newlineAt data i → ∃ b, index data i = Ok b ∧ isNewline b = true.
Proof.
  intros (Hi & b & Hb & Hn). exists b. split; [| done].
  rewrite <- (Z2Nat.id i) by lia. by apply index_lookup.
Qed.

Lemma not_newlineAt_index data i :
  0 ≤ i < len data → ¬ newlineAt data i →
  ∃ b, index data i = Ok b ∧ isNewline b = false.
Proof.
  intros Hi Hno.
  destruct (lookup_lt_is_Some_2 data (Z.to_nat i)) as [b Hb];
    [unfold len in *; lia |].
  exists b. split.
  - rewrite <- (Z2Nat.id i) by lia. by apply index_lookup.
  - destruct (isNewline b) eqn:Hn; [| done].
    exfalso. apply Hno. split; [lia |]. by exists b.
Qed.

(** Expanding an expanded start or end changes nothing. *)
Lemma expandStart_idempotent data startPos r :
  expandStart data startPos = Ok r → expandStart data r = Ok r.
Proof.
  intros Hr. pose proof Hr as Hinv. apply expandStart_inv in Hinv
    as [[Hneg ->] | [Hpos [[-> _] | [[-> Hn] | (j & Hj & Hnj & Hno & ->)]]]];
    [done | done | done |].
  unfold expandStart. rewrite (proj2 (Z.ltb_lt 0 (j + 1))) by lia.
  replace (Z.to_nat (j + 1)) with (S (Z.to_nat j)) by lia.
  cbn [expandStart_loop].
  replace (Z.of_nat (S (Z.to_nat j))) with (j + 1) by lia.
  destruct (not_newlineAt_index data (j + 1)) as (b & -> & Hb);
    [lia | apply Hno; lia |].
  simpl. rewrite Hb.
  destruct (Z.to_nat j) as [|jn] eqn:Hjn; [lia |].
  cbn [expandStart_loop].
  replace (Z.of_nat (S jn)) with j by lia.
  destruct (newlineAt_index data j Hnj) as (bj & -> & Hbj).
  simpl. rewrite Hbj. by rewrite bool_decide_eq_true_2 by lia.
Qed.

Lemma expandEnd_idempotent data endPos r :
  expandEnd data endPos = Ok r → expandEnd data r = Ok r.
Proof.
  intros Hr. pose proof Hr as Hinv. apply expandEnd_inv in Hinv
    as [[Hge ->] | (Hlt & Hle & _ & [-> | Hn])]; [done | |].
  - unfold expandEnd. by rewrite (proj2 (Z.ltb_ge _ _)) by lia.
  - destruct (newlineAt_index data r Hn) as (b & Hidx & Hb).
    pose proof (index_Ok _ _ _ Hidx) as [Hrange _].
    unfold expandEnd. rewrite (proj2 (Z.ltb_lt _ _)) by lia.
    destruct (Z.to_nat (len data - r)) as [|k] eqn:Hk; [lia |].
    cbn [expandEnd_loop].
    replace (len data - Z.of_nat (S k)) with r by lia.
    rewrite Hidx. simpl. by rewrite Hb.
Qed.

(** What a returning call under line expansion computed. *)
Lemma initMatchText_line_inv w m startPos endPos m' :
  worker.needMatchLine w = true →
  initMatchText w m startPos endPos = Ok m' →
  ∃ start end_ bs,
    expandStart (worker.data w) startPos = Ok start ∧
    expandEnd (worker.data w) endPos = Ok end_ ∧
    slice (worker.data w) start end_ = Ok bs ∧
    m' = setMatchText m (string_of_list_byte bs)
           (startPos - start) (endPos - startPos).
Proof.
  unfold initMatchText. intros ->. simpl. intros Hb.
  apply bind_Ok in Hb as (start & Hs & Hb).
  apply bind_Ok in Hb as (end_ & He & Hb).
  apply bind_Ok in Hb as (bs & Hbs & [= <-]).
  by exists start, end_, bs.
Qed.
End MatchText.

Section MatchTextProperties.
Context `{Env}.

Lemma take_drop_inner {A} (l : list A) (a b c d : nat) :
  (a ≤ c)%nat → (c ≤ d)%nat → (d ≤ b)%nat →
  take (d - c) (drop (c - a) (take (b - a) (drop a l))) =
  take (d - c) (drop c l).
Proof.
  intros Hac Hcd Hdb.
  rewrite skipn_firstn_comm, drop_drop, firstn_firstn.
  replace (a + (c - a))%nat with c by lia.
  f_equal. lia.
Qed.

(** The matched range recorded with the text picks the bytes of the match
    out of the text: whenever [initMatchText] returns for offsets with
    [startPos <= endPos], in either mode, the bytes of the text from
    [matchStartOffset] over [matchLength] are the bytes of the data from
    [startPos] to [endPos]. *)
Theorem matched_range_recovers_match (w : worker.t) (m : Match.t)
    (startPos endPos : Z) (m' : Match.t) :
  startPos ≤ endPos →
  initMatchText w m startPos endPos = Ok m' →
  ∃ bs,
    slice (worker.data w) startPos endPos = Ok bs ∧
    slice (list_byte_of_string (Match.text m'))
      (Match.matchStartOffset m')
      (Match.matchStartOffset m' + Match.matchLength m') = Ok bs.
Proof.
  intros Hle Hm. destruct (worker.needMatchLine w) eqn:Hline.
  - apply initMatchText_line_inv in Hm
      as (start & end_ & bs & Hs & He & Hbs & ->); [| done].
    simpl. rewrite list_byte_of_string_of_list_byte.
    pose proof (slice_length _ _ _ _ Hbs) as Hlen.
    apply slice_inv in Hbs as (Hr1 & Hr2 & ->).
    assert (start ≤ startPos).
    { apply expandStart_inv in Hs
        as [[_ ->] | [Hpos [[-> _] | [[-> _] | (j & Hj & _ & _ & ->)]]]]; lia. }
    assert (endPos ≤ end_).
    { apply expandEnd_inv in He as [[_ ->] | (_ & ? & _)]; lia. }
    eexists. split; [apply slice_Ok; lia |].
    rewrite slice_Ok by lia. f_equal.
    replace (startPos - start + (endPos - startPos) - (startPos - start))
      with (endPos - startPos) by lia.
    replace (Z.to_nat (endPos - startPos))
      with (Z.to_nat endPos - Z.to_nat startPos)%nat by lia.
    replace (Z.to_nat (startPos - start))
      with (Z.to_nat startPos - Z.to_nat start)%nat by lia.
    replace (Z.to_nat (end_ - start))
      with (Z.to_nat end_ - Z.to_nat start)%nat by lia.
    apply take_drop_inner; lia.
  - destruct (initMatchText_plain _ _ _ _ _ Hline Hm)
      as (bs & Hbs & Htext & Hoff & Hlen).
    exists bs. split; [done |].
    rewrite Htext, list_byte_of_string_of_list_byte, Hoff, Hlen, Htext.
    rewrite length_string_of_list_byte.
    rewrite slice_Ok by (unfold len; lia). f_equal.
    replace (Z.to_nat (0 + Z.of_nat (length bs) - 0)) with (length bs) by lia.
    simpl. apply firstn_all.
Qed.

(** For offsets that form a valid range of the data, [initMatchText]
    panics in exactly one case: line expansion is on and the match starts
    at the end of non-empty data, where the backward loop indexes
    [w.data[len(w.data)]]. *)
Theorem initMatchText_returns_iff (w : worker.t) (m : Match.t)
    (startPos endPos : Z) :
  validRange (len (worker.data w)) startPos endPos →
  is_Ok (initMatchText w m startPos endPos) ↔
  (worker.needMatchLine w = false ∨ startPos = 0 ∨
   startPos < len (worker.data w)).
Proof.
  intros Hvalid. pose proof Hvalid as (Hs & Hse & He). split.
  - destruct (worker.needMatchLine w) eqn:Hline; [| by left].
    destruct (initMatchText w m startPos endPos) as [m'|msg] eqn:Hm; [| done].
    intros _. right.
    apply initMatchText_line_inv in Hm as (start & _ & _ & Hst & _); [| done].
    apply expandStart_inv in Hst as [[? _] | [? _]]; lia.
  - intros Hcase. destruct (worker.needMatchLine w) eqn:Hline.
    + unfold initMatchText. rewrite Hline. simpl.
      destruct (expandStart_bounds (worker.data w) startPos)
        as (start & -> & Hstart).
      { destruct Hcase as [? | [? | ?]]; [done | by left | right; lia]. }
      destruct (expandEnd_bounds (worker.data w) endPos)
        as (end_ & -> & Hend); [lia |].
      simpl. by rewrite slice_Ok by lia.
    + by apply initMatchText_plain_Ok.
Qed.

Lemma index_cons_pos b rest i :
  0 < i → index (b :: rest) i = index rest (i - 1).
Proof.
  intros Hi. unfold index, len. simpl length.
  replace (Z.to_nat i) with (S (Z.to_nat (i - 1))) by lia. simpl.
  destruct (Z.leb_spec 0 i), (Z.leb_spec 0 (i - 1)); try lia.
  destruct (Z.ltb_spec i (Z.of_nat (S (length rest)))),
    (Z.ltb_spec (i - 1) (Z.of_nat (length rest))); try lia; done.
Qed.

(** The backward loop of [initMatchText] never looks at the first byte of
    the data: the expanded start is the same whatever that byte is. *)
Theorem expandStart_ignores_first_byte (b b' : byte) (rest : list byte)
    (startPos : Z) :
  expandStart (b :: rest) startPos = expandStart (b' :: rest) startPos.
Proof.
  unfold expandStart. destruct (0 <? startPos); [| done].
  induction (Z.to_nat startPos) as [|k IH]; [done |].
  cbn [expandStart_loop]. rewrite !index_cons_pos by lia.
  destruct (index rest (Z.of_nat (S k) - 1)) as [c|msg]; [| done].
  simpl. by rewrite IH.
Qed.

(** The shape of the text under line expansion.  With [start] and [end]
    the offsets the text was cut at: [start] is at or before the match and
    [end] at or after it; between [start] and the match there is no
    newline, except that byte 0 of the data may be one; between the match
    and [end] there is none; [start] is 0, or follows a newline, or is the
    match start itself when the match starts on a newline; [end] is the
    length of the data or the offset of a newline. *)
Theorem expanded_line_shape (w : worker.t) (m : Match.t)
    (startPos endPos : Z) (m' : Match.t) :
  worker.needMatchLine w = true →
  initMatchText w m startPos endPos = Ok m' →
  let data := worker.data w in
  let start := startPos - Match.matchStartOffset m' in
  let end_ := start + Z.of_nat (String.length (Match.text m')) in
  0 ≤ start ≤ startPos ∧ endPos ≤ end_ ≤ len data ∧
  (∀ i, start ≤ i < startPos → newlineAt data i → i = 0) ∧
  (∀ i, endPos ≤ i < end_ → ¬ newlineAt data i) ∧
  (start = 0 ∨ newlineAt data (start - 1) ∨
   (start = startPos ∧ newlineAt data startPos)) ∧
  (end_ = len data ∨ newlineAt data end_).
Proof.
  intros Hline Hm. cbv zeta.
  apply initMatchText_line_inv in Hm
    as (start & end_ & bs & Hs & He & Hbs & ->); [| done].
  simpl. rewrite length_string_of_list_byte.
  pose proof (slice_length _ _ _ _ Hbs) as Hlen. unfold len in Hlen.
  apply slice_inv in Hbs as (Hr1 & Hr2 & _).
  replace (startPos - (startPos - start)) with start by lia.
  replace (start + Z.of_nat (length bs)) with end_ by lia.
  apply expandStart_inv in Hs.
  apply expandEnd_inv in He.
  assert (Hstart : start ≤ startPos ∧
            (∀ i, start ≤ i < startPos → newlineAt (worker.data w) i → i = 0) ∧
            (start = 0 ∨ newlineAt (worker.data w) (start - 1) ∨
             (start = startPos ∧ newlineAt (worker.data w) startPos))).
  { destruct Hs as [[Hneg ->] | [Hpos [[-> Hno] | [[-> Hn] |
      (j & Hj & Hnj & Hno & ->)]]]].
    - split; [lia |]. split; [lia |]. left. lia.
    - split; [lia |]. split; [| by left].
      intros i Hi Hn. destruct (decide (i = 0)); [done |].
      exfalso. apply (Hno i); [lia | done].
    - split; [lia |]. split; [lia |]. right. by right.
    - split; [lia |]. split.
      + intros i Hi Hn. exfalso. apply (Hno i); [lia | done].
      + right. left. by replace (j + 1 - 1) with j by lia. }
  assert (Hend : endPos ≤ end_ ∧
            (∀ i, endPos ≤ i < end_ → ¬ newlineAt (worker.data w) i) ∧
            (end_ = len (worker.data w) ∨ newlineAt (worker.data w) end_)).
  { destruct He as [[Hge ->] | (Hlt & Hle & Hno & Hstop)].
    - split; [lia |]. split; [lia |]. left. lia.
    - split; [lia | by split]. }
  destruct Hstart as (? & ? & ?), Hend as (? & ? & ?).
  repeat split; try done; lia.
Qed.

(** Line expansion is idempotent: expanding the range the text was cut
    at gives the same text again, now as the whole matched range. *)
Theorem line_expansion_idempotent (w : worker.t) (m : Match.t)
    (startPos endPos : Z) (m' : Match.t) :
  worker.needMatchLine w = true →
  initMatchText w m startPos endPos = Ok m' →
  let start := startPos - Match.matchStartOffset m' in
  let end_ := start + Z.of_nat (String.length (Match.text m')) in
  initMatchText w m start end_ =
  Ok (setMatchText m (Match.text m') 0
        (Z.of_nat (String.length (Match.text m')))).
Proof.
  intros Hline Hm. cbv zeta.
  apply initMatchText_line_inv in Hm
    as (start & end_ & bs & Hs & He & Hbs & ->); [| done].
  simpl. rewrite length_string_of_list_byte.
  pose proof (slice_length _ _ _ _ Hbs) as Hlen. unfold len in Hlen.
  replace (startPos - (startPos - start)) with start by lia.
  replace (start + Z.of_nat (length bs)) with end_ by lia.
  unfold initMatchText. rewrite Hline. simpl.
  rewrite (expandStart_idempotent _ _ _ Hs), (expandEnd_idempotent _ _ _ He).
  simpl. rewrite Hbs. simpl. do 2 f_equal; lia.
Qed.
End MatchTextProperties.

(** ** More on the walk: order, counts and evaluator calls *)

Section WalkOrder.
Context `{Env}.

Lemma handledInOrder_nil w T : handledInOrder w T w T [].
Proof.
  exists [], []. split; [constructor |].
  change (len (@nil gogrep.MatchData)) with 0.
  split; [lia |]. split; [by rewrite app_nil_r |]. split.
  { destruct (worker.countMode w); [done | constructor]. }
  split; [done |]. simpl. case_bool_decide; lia.
Qed.

Lemma handledInOrder_set_gogrepState w T st :
  handledInOrder w T (worker.set_gogrepState w st) T [].
Proof.
  exists [], []. split; [constructor |].
  change (len (@nil gogrep.MatchData)) with 0. simpl.
  split; [lia |]. split; [by rewrite app_nil_r |]. split.
  { destruct (worker.countMode w); [done | constructor]. }
  split; [done |]. case_bool_decide; lia.
Qed.

Lemma handledInOrder_app w T w1 T1 w2 T2 ds1 ds2 :
  walkFrame w w1 →
  handledInOrder w T w1 T1 ds1 → handledInOrder w1 T1 w2 T2 ds2 →
  handledInOrder w T w2 T2 (ds1 ++ ds2).
Proof.
  intros Hf (acc1 & new1 & Hsub1 & Hn1 & Hm1 & Hnew1 & Hnop1 & Hcalls1)
            (acc2 & new2 & Hsub2 & Hn2 & Hm2 & Hnew2 & Hnop2 & Hcalls2).
  destruct (walkFrame_fields _ _ Hf) as (Hcm & _ & _ & Hfe & _).
  rewrite Hcm in Hnew2. rewrite Hfe in Hnop2, Hcalls2.
  exists (acc1 ++ acc2), (new1 ++ new2).
  split; [by apply sublist_app |].
  split; [rewrite len_app; lia |].
  split; [by rewrite Hm2, Hm1, app_assoc |]. split.
  { destruct (worker.countMode w); [by subst |].
    apply Forall2_app; [done |].
    eapply Forall2_impl; [exact Hnew2 |]. intros d m' Hmat.
    by rewrite <- (materialize_frame w w1). }
  split.
  { intros Hop. by rewrite (Hnop1 Hop), (Hnop2 Hop). }
  rewrite Hcalls2, Hcalls1, length_app. case_bool_decide; lia.
Qed.

Lemma visitMatch_handledInOrder w T d w' T' :
  visitMatch w T d = Ok (w', T') → handledInOrder w T w' T' [d].
Proof.
  rewrite visitMatch_unfold. cbv zeta. unfold handledInOrder.
  destruct (bool_decide (Op (worker.filterExpr w) = OpNop)) eqn:Hop.
  - apply bool_decide_eq_true in Hop. simpl.
    destruct (worker.countMode w) eqn:Hcm.
    + intros [= <- <-]. exists [d], []. simpl. change (len [d]) with 1.
      split; [done |]. split; [done |]. split; [by rewrite app_nil_r |].
      split; [done |]. split; [done | lia].
    + intros Hb. apply bind_Ok in Hb as (m & Hm & [= <- <-]).
      exists [d], [m]. simpl. change (len [d]) with 1.
      split; [done |]. split; [done |]. split; [done |].
      split; [by repeat constructor |]. split; [done | lia].
  - apply bool_decide_eq_false in Hop. simpl.
    destruct (applyFilter _ _ _); simpl.
    + destruct (worker.countMode w) eqn:Hcm.
      * intros [= <- <-]. exists [d], []. simpl. change (len [d]) with 1.
        split; [done |]. split; [done |]. split; [by rewrite app_nil_r |].
        split; [done |]. split; [done | lia].
      * intros Hb. apply bind_Ok in Hb as (m & Hm & [= <- <-]).
        exists [d], [m]. simpl. change (len [d]) with 1.
        split; [done |]. split; [done |]. split; [done |].
        split; [by repeat constructor |]. split; [done | lia].
    + intros [= <- <-]. exists [], []. simpl.
      change (len (@nil gogrep.MatchData)) with 0.
      split; [apply sublist_nil_l |]. split; [lia |].
      split; [by rewrite app_nil_r |]. split.
      { destruct (worker.countMode w); [done | constructor]. }
      split; [done | lia].
Qed.

Lemma visitMatches_handledInOrder hits : ∀ w T w' T',
  visitMatches w T hits = Ok (w', T') →
  handledInOrder w T w' T' (map snd hits).
Proof.
  induction hits as [|[st d] rest IH]; intros w T w' T'; simpl.
  - intros [= <- <-]. apply handledInOrder_nil.
  - intros Hb. apply bind_Ok in Hb as ([w1 T1] & Hhit & Hrest).
    pose proof (visitMatch_handled _ _ _ _ _ Hhit) as [Hf1 _].
    apply visitMatch_handledInOrder in Hhit. apply IH in Hrest.
    pose proof (handledInOrder_app _ _ _ _ _ _ _ _
                  (walkFrame_set_gogrepState w st)
                  (handledInOrder_set_gogrepState w T st) Hhit) as H1.
    refine (handledInOrder_app _ _ _ _ _ _ _ _ _ H1 Hrest).
    exact (walkFrame_trans _ _ _ (walkFrame_set_gogrepState w st) Hf1).
Qed.

Lemma visitAll_handledInOrder nodes : ∀ w T w' T',
  visitAll w T nodes = Ok (w', T') →
  handledInOrder w T w' T'
    (hitsAlong (worker.m w) (worker.gogrepState w) nodes).
Proof.
  induction nodes as [|n rest IH]; intros w T w' T'; simpl.
  - intros [= <- <-]. apply handledInOrder_nil.
  - intros Hb. apply bind_Ok in Hb as ([w1 T1] & Hn & Hrest).
    pose proof (Visit_handled _ _ _ _ _ Hn) as [[Hf _] Hst].
    destruct (walkFrame_fields _ _ Hf) as (_ & _ & _ & _ & Hm & _).
    apply IH in Hrest. rewrite Hm, Hst in Hrest.
    unfold Visit in Hn.
    destruct (Pattern_MatchNode (worker.m w) (worker.gogrepState w) n)
      as [hits st]. simpl in *.
    apply bind_Ok in Hn as ([w2 T2] & Hhits & [= <- <-]).
    pose proof (visitMatches_handled _ _ _ _ _ Hhits) as [Hf2 _].
    apply visitMatches_handledInOrder in Hhits.
    pose proof (handledInOrder_app _ _ _ _ _ _ _ _ Hf2 Hhits
                  (handledInOrder_set_gogrepState w2 T2 st)) as H1.
    rewrite app_nil_r in H1.
    exact (handledInOrder_app _ _ _ _ _ _ _ _ Hf H1 Hrest).
Qed.

(** On the path through the walk [grepFile] is the walk from
    [scanStart]. *)
Lemma grepFile_walk w T filename data root :
  ¬ prefilterSkips w filename →
  disk T filename = inl data →
  parser_parse filename data (needComments w) = inl root →
  ¬ autogenCondSkips w root →
  grepFile w T filename =
  ('(w', T') ← astWalker_walk (scanStart w filename data root)
                 (World_read T filename) (File_node root);
   Ok (w', T', (worker.n w', None))).
Proof.
  intros Hpre Hdisk Hparse Hauto.
  destruct (grepFile_paths w T filename) as [[Hs _] | [_ Hpath]]; [done |].
  destruct Hpath as [(e & He & _) | (data' & Hd & Hpath)]; [congruence |].
  assert (data' = data) as -> by congruence.
  destruct Hpath as [(e & He & _) | (root' & Hr & Hpath)]; [congruence |].
  assert (root' = root) as -> by congruence.
  by destruct Hpath as [(Hs & _) | (_ & ->)].
Qed.

(** The matches of a scan follow the walk.  When [grepFile] walks the
    tree and returns, the hits it accepted are some of the hits the
    matcher reported along the pre-order walk, in the order they were
    reported; the count returned is their number; outside count mode the
    matches appended are the records built for them, one for each, in the
    same order, and in count mode nothing is appended; under the no-op
    filter every hit is accepted. *)
Theorem matches_follow_walk_order (w : worker.t) (T : World)
    (filename : string) (data : list byte) (root : File)
    (w' : worker.t) (T' : World) (cnt : Z) (err : option string) :
  ¬ prefilterSkips w filename →
  disk T filename = inl data →
  parser_parse filename data (needComments w) = inl root →
  ¬ autogenCondSkips w root →
  grepFile w T filename = Ok (w', T', (cnt, err)) →
  ∃ acc new,
    sublist acc (hitsAlong (worker.m w) (worker.gogrepState w)
                   (preorder (File_node root))) ∧
    cnt = len acc ∧
    worker.matches w' = worker.matches w ++ new ∧
    (if worker.countMode w then new = []
     else Forall2 (fun d m =>
                     materialize (scanStart w filename data root) d = Ok m)
            acc new) ∧
    (Op (worker.filterExpr w) = OpNop →
     acc = hitsAlong (worker.m w) (worker.gogrepState w)
             (preorder (File_node root))).
Proof.
  intros Hpre Hdisk Hparse Hauto.
  rewrite (grepFile_walk w T filename data root) by done.
  unfold astWalker_walk. intros Hb.
  apply bind_Ok in Hb as ([w1 T1] & Hwalk & [= <- <- <- <-]).
  apply visitAll_handledInOrder in Hwalk
    as (acc & new & Hsub & Hn & Hm & Hnew & Hnop & _).
  exists acc, new. simpl in *. repeat split; done || lia.
Qed.

(** The filter evaluator is called once for every hit the matcher reports
    along the walk when the filter expression is not the no-op, and not at
    all when it is. *)
Theorem filter_called_once_per_hit (w : worker.t) (T : World)
    (filename : string) (data : list byte) (root : File)
    (w' : worker.t) (T' : World) (r : Z * option string) :
  ¬ prefilterSkips w filename →
  disk T filename = inl data →
  parser_parse filename data (needComments w) = inl root →
  ¬ autogenCondSkips w root →
  grepFile w T filename = Ok (w', T', r) →
  filterCalls T' =
  (filterCalls T +
   if bool_decide (Op (worker.filterExpr w) = OpNop) then 0
   else length (hitsAlong (worker.m w) (worker.gogrepState w)
                  (preorder (File_node root))))%nat.
Proof.
  intros Hpre Hdisk Hparse Hauto.
  rewrite (grepFile_walk w T filename data root) by done.
  unfold astWalker_walk. intros Hb.
  apply bind_Ok in Hb as ([w1 T1] & Hwalk & [= <- <- <-]).
  by apply visitAll_handledInOrder in Hwalk
    as (acc & new & _ & _ & _ & _ & _ & Hcalls).
Qed.
End WalkOrder.

(** ** More on grepFile: what a scan changes and what it reports *)

Section ScanProperties.
Context `{Env}.

(** What [grepFile] never touches.  A call that returns leaves the
    configuration of the worker (mode flags, working directory, heat map,
    filter hints, filter metadata and expression, pattern) and its list
    of errors as they were; the matches it had are still there, in front
    of what the call appended; the disk is unchanged and the only read is
    at most one read of the file asked for. *)
Theorem grepFile_keeps_configuration (w : worker.t) (T : World)
    (filename : string) (w' : worker.t) (T' : World)
    (r : Z * option string) :
  grepFile w T filename = Ok (w', T', r) →
  worker.id w' = worker.id w ∧
  worker.countMode w' = worker.countMode w ∧
  worker.needCapture w' = worker.needCapture w ∧
  worker.needMatchLine w' = worker.needMatchLine w ∧
  worker.workDir w' = worker.workDir w ∧
  worker.heatmapFilenameSet w' = worker.heatmapFilenameSet w ∧
  worker.heatmap w' = worker.heatmap w ∧
  worker.filterHints w' = worker.filterHints w ∧
  worker.filterInfo w' = worker.filterInfo w ∧
  worker.filterExpr w' = worker.filterExpr w ∧
  worker.m w' = worker.m w ∧
  worker.errors w' = worker.errors w ∧
  (∃ new, worker.matches w' = worker.matches w ++ new) ∧
  disk T' = disk T ∧
  (reads T' = reads T ∨ reads T' = reads T ++ [filename]).
Proof.
  destruct (grepFile_paths w T filename) as [[_ ->] | [_ Hpath]].
  { intros [= <- <- <-]. repeat split; try done.
    - exists []. by rewrite app_nil_r.
    - by left. }
  destruct Hpath as [(e & _ & ->) | (data & Hd & Hpath)].
  { intros [= <- <- <-]. repeat split; try done.
    - exists []. by rewrite app_nil_r.
    - by right. }
  destruct Hpath as [(e & _ & ->) | (root & Hp & Hpath)].
  { intros [= <- <- <-]. repeat split; try done.
    - exists []. by rewrite app_nil_r.
    - by right. }
  destruct Hpath as [(_ & ->) | (_ & ->)].
  { intros [= <- <- <-]. repeat split; try done.
    - exists []. by rewrite app_nil_r.
    - by right. }
  unfold astWalker_walk. intros Hb.
  apply bind_Ok in Hb as ([w1 T1] & Hwalk & [= <- <- <-]).
  apply visitAll_handled in Hwalk
    as (Hf & Hdisk & Hreads & _ & (new & Hnew & _) & _).
  assert (Hfields :
    worker.id w1 = worker.id w ∧
    worker.workDir w1 = worker.workDir w ∧
    worker.heatmapFilenameSet w1 = worker.heatmapFilenameSet w ∧
    worker.heatmap w1 = worker.heatmap w ∧
    worker.filterHints w1 = worker.filterHints w ∧
    worker.filterInfo w1 = worker.filterInfo w).
  { rewrite Hf. by repeat split. }
  destruct Hfields as (? & ? & ? & ? & ? & ?).
  destruct (walkFrame_fields _ _ Hf)
    as (? & ? & ? & ? & ? & _ & ? & _).
  repeat split; try done.
  - by exists new.
  - by right.
Qed.

(** A scan that walks the tree replaces the scratch fields together: the
    worker ends with the bytes of this file, the position table built for
    them, this file name and the package name of its tree; the count
    returned is the counter and the error is nil. *)
Theorem scan_replaces_scratch_fields (w : worker.t) (T : World)
    (filename : string) (data : list byte) (root : File)
    (w' : worker.t) (T' : World) (cnt : Z) (err : option string) :
  ¬ prefilterSkips w filename →
  disk T filename = inl data →
  parser_parse filename data (needComments w) = inl root →
  ¬ autogenCondSkips w root →
  grepFile w T filename = Ok (w', T', (cnt, err)) →
  worker.data w' = data ∧
  worker.fset w' = fsetOf filename data ∧
  worker.filename w' = filename ∧
  worker.pkgName w' = Name root ∧
  cnt = worker.n w' ∧ err = None.
Proof.
  intros Hpre Hdisk Hparse Hauto.
  rewrite (grepFile_walk w T filename data root) by done.
  unfold astWalker_walk. intros Hb.
  apply bind_Ok in Hb as ([w1 T1] & Hwalk & [= <- <- <- <-]).
  apply visitAll_handled in Hwalk as (Hf & _).
  destruct (walkFrame_fields _ _ Hf)
    as (_ & _ & _ & _ & _ & Hfs & _ & Hda & Hfn & Hpk).
  by rewrite Hfs, Hda, Hfn, Hpk.
Qed.

(** In count-only mode [grepFile] never panics, whatever the matcher
    reports and the filter answers: no match text is cut. *)
Theorem count_mode_never_panics (w : worker.t) (T : World)
    (filename : string) :
  worker.countMode w = true → is_Ok (grepFile w T filename).
Proof.
  intros Hcm.
  destruct (grepFile_paths w T filename) as [[_ ->] | [_ Hpath]]; [done |].
  destruct Hpath as [(e & _ & ->) | (data & Hd & Hpath)]; [done |].
  destruct Hpath as [(e & _ & ->) | (root & Hp & Hpath)]; [done |].
  destruct Hpath as [(_ & ->) | (_ & ->)]; [done |].
  unfold astWalker_walk.
  destruct (visitAll_countMode_Ok (preorder (File_node root))
              (scanStart w filename data root) (World_read T filename) Hcm)
    as (w1 & T1 & ->).
  done.
Qed.

Lemma materialize_fields w d m :
  materialize w d = Ok m →
  Match.filename m = worker.filename w ∧
  (worker.needCapture w = false → Match.capture m = []) ∧
  Forall (fun c =>
    capturedNode.startOffset c =
      Offset (FileSet_Position (worker.fset w)
                (Node_Pos (gogrep.cn_Node (capturedNode.data c)))) ∧
    capturedNode.endOffset c =
      Offset (FileSet_Position (worker.fset w)
                (Node_End (gogrep.cn_Node (capturedNode.data c)))))
    (Match.capture m).
Proof.
  intros Hm. destruct (materialize_offsets _ _ _ Hm) as (_ & _ & Hc).
  unfold materialize in Hm.
  apply initMatchText_keeps in Hm as (Hfn & _).
  rewrite Hfn, Hc. destruct (worker.needCapture w); simpl.
  - split; [done |]. split; [done |]. apply Forall_map. by apply Forall_true.
  - split; [done |]. split; [done | constructor].
Qed.

(** Every match a scan appends names the file that was scanned; it has no
    captures when captures are not asked for; and each captured node it
    stores has the offsets of its own capture's node in the position
    table the worker ends with. *)
Theorem appended_matches_name_the_file (w : worker.t) (T : World)
    (filename : string) (w' : worker.t) (T' : World)
    (r : Z * option string) :
  grepFile w T filename = Ok (w', T', r) →
  ∃ new,
    worker.matches w' = worker.matches w ++ new ∧
    Forall (fun m =>
      Match.filename m = filename ∧
      (worker.needCapture w = false → Match.capture m = []) ∧
      Forall (fun c =>
        capturedNode.startOffset c =
          Offset (FileSet_Position (worker.fset w')
                    (Node_Pos (gogrep.cn_Node (capturedNode.data c)))) ∧
        capturedNode.endOffset c =
          Offset (FileSet_Position (worker.fset w')
                    (Node_End (gogrep.cn_Node (capturedNode.data c)))))
        (Match.capture m))
      new.
Proof.
  intros Hg. destruct r as [cnt err].
  apply grepFile_summary in Hg
    as [(Hm & _) | (data & root & _ & _ & _ & _ & Hh)].
  { exists []. by rewrite app_nil_r. }
  destruct Hh as (Hf & _ & _ & _ & (new & Hnew & Hall & _) & _).
  destruct (walkFrame_fields _ _ Hf) as (_ & _ & _ & _ & _ & Hfs & _).
  exists new. split; [exact Hnew |].
  eapply Forall_impl; [exact Hall |].
  intros m (d & _ & Hmat). rewrite Hfs.
  exact (materialize_fields _ _ _ Hmat).
Qed.

(** Whatever nodes the matcher reports, every offset a scan records (of a
    match and of its captured nodes) lies between 0 and the length of the
    file: positions outside the file are recorded as offset 0. *)
Theorem recorded_offsets_lie_in_file (w : worker.t) (T : World)
    (filename : string) (data : list byte) (w' : worker.t) (T' : World)
    (r : Z * option string) :
  disk T filename = inl data →
  grepFile w T filename = Ok (w', T', r) →
  ∃ new,
    worker.matches w' = worker.matches w ++ new ∧
    Forall (offsetsInFile (len data)) new.
Proof.
  intros Hdisk Hg. destruct r as [cnt err].
  apply grepFile_summary in Hg
    as [(Hm & _) | (data' & root & Hd & _ & _ & _ & Hh)].
  { exists []. by rewrite app_nil_r. }
  assert (data' = data) as -> by congruence.
  destruct Hh as (_ & _ & _ & _ & (new & Hnew & Hall & _) & _).
  exists new. split; [exact Hnew |].
  eapply Forall_impl; [exact Hall |].
  intros m (d & _ & Hmat).
  destruct (materialize_offsets _ _ _ Hmat) as (Hs & He & Hc).
  unfold offsetsInFile. rewrite Hs, He, Hc.
  change (worker.fset (scanStart w filename data root))
    with (fsetOf filename data).
  split; [apply Position_fsetOf_Offset_range |].
  split; [apply Position_fsetOf_Offset_range |].
  destruct (worker.needCapture _); [| constructor].
  apply Forall_map, Forall_true. intros c. simpl.
  split; apply Position_fsetOf_Offset_range.
Qed.

(** A heat map file name set that is configured but empty skips every
    file (a nil set skips none). *)
Theorem empty_heatmap_set_skips_every_file (w : worker.t) (T : World)
    (filename : string) :
  worker.heatmapFilenameSet w = Some ∅ →
  grepFile w T filename = Ok (w, T, (0, None)).
Proof.
  intros Hset.
  destruct (grepFile_paths w T filename) as [[_ Hg] | [Hn _]]; [done |].
  exfalso. apply Hn. left. exists ∅. split; [done |].
  apply not_elem_of_empty.
Qed.

(** A scan reports something only for a file that passed every gate.  If
    [grepFile] returns a count other than 0 or has appended a match, then
    the base name is in the heat map set when one is configured, the test
    condition is unset or equal to the test-suffix status of the name,
    the file was read and parsed, the autogeneration condition is unset or
    equal to what the detector says of the tree, and the error is nil. *)
Theorem report_implies_all_gates_passed (w : worker.t) (T : World)
    (filename : string) (w' : worker.t) (T' : World) (cnt : Z)
    (err : option string) :
  grepFile w T filename = Ok (w', T', (cnt, err)) →
  cnt ≠ 0 ∨ worker.matches w' ≠ worker.matches w →
  (∀ set, worker.heatmapFilenameSet w = Some set →
          filepath_Base filename ∈ set) ∧
  (testCond (worker.filterHints w) = bool3unset ∨
   testCond (worker.filterHints w) = bool3_of_bool (isTestFile filename)) ∧
  err = None ∧
  ∃ data root,
    disk T filename = inl data ∧
    parser_parse filename data (needComments w) = inl root ∧
    (autogenCond (worker.filterHints w) = bool3unset ∨
     autogenCond (worker.filterHints w) = bool3_of_bool (isAutogenFile root)).
Proof.
  intros Hg Hreport.
  assert (Hcond : ∀ c v,
            ¬ (c ≠ bool3unset ∧ c ≠ bool3_of_bool v) →
            c = bool3unset ∨ c = bool3_of_bool v).
  { intros c v Hn. destruct (decide (c = bool3unset)); [by left |].
    destruct (decide (c = bool3_of_bool v)); [by right |].
    exfalso. by apply Hn. }
  assert (Hid : ∀ fs, worker.matches (worker.set_fset w fs) = worker.matches w)
    by done.
  destruct (grepFile_paths w T filename) as [[_ Hp] | [Hn Hpath]].
  { rewrite Hp in Hg. injection Hg as <- <- <- <-. by destruct Hreport. }
  destruct Hpath as [(e & _ & Hp) | (data & Hd & Hpath)].
  { rewrite Hp in Hg. injection Hg as <- <- <- <-. by destruct Hreport. }
  destruct Hpath as [(e & _ & Hp) | (root & Hr & Hpath)].
  { rewrite Hp in Hg. injection Hg as <- <- <- <-. by destruct Hreport. }
  destruct Hpath as [(_ & Hp) | (Hauto & Hp)].
  { rewrite Hp in Hg. injection Hg as <- <- <- <-. by destruct Hreport. }
  rewrite Hp in Hg.
  apply bind_Ok in Hg as ([w1 T1] & _ & [= <- <- <- <-]).
  split.
  { intros set Hset. destruct (decide (filepath_Base filename ∈ set));
      [done |]. exfalso. apply Hn. left. by exists set. }
  split.
  { apply Hcond. intros Hs. apply Hn. by right. }
  split; [done |]. exists data, root. split; [done |]. split; [done |].
  by apply Hcond.
Qed.

(** An error means nothing was found.  When [grepFile] returns a non-nil
    error the count is 0 and the matches are as they were, and the error
    is either the read error of the file behind "read file: ", with the
    worker unchanged, or the parser's error for the bytes read. *)
Theorem error_means_no_matches (w : worker.t) (T : World)
    (filename : string) (w' : worker.t) (T' : World) (cnt : Z)
    (e : string) :
  grepFile w T filename = Ok (w', T', (cnt, Some e)) →
  cnt = 0 ∧ worker.matches w' = worker.matches w ∧
  ((∃ oserr, disk T filename = inr oserr ∧
             e = ("read file: " +:+ oserr)%string ∧ w' = w) ∨
   (∃ data, disk T filename = inl data ∧
            parser_parse filename data (needComments w) = inr e)).
Proof.
  destruct (grepFile_paths w T filename) as [[_ ->] | [_ Hpath]]; [done |].
  destruct Hpath as [(oserr & Hd & ->) | (data & Hd & Hpath)].
  { intros [= <- <- <- <-]. split; [done |]. split; [done |].
    left. by exists oserr. }
  destruct Hpath as [(e' & Hp & ->) | (root & Hp & Hpath)].
  { intros [= <- <- <- <-]. split; [done |]. split; [done |].
    right. by exists data. }
  destruct Hpath as [(_ & ->) | (_ & ->)]; [done |].
  intros Hb. by apply bind_Ok in Hb as ([w1 T1] & _ & [=]).
Qed.
End ScanProperties.

(** ** More on the detector and on nodeText *)

Section DetectorAndText.
Context `{Env}.

(** The detector only ever gains from more comment lines: a group that
    holds every line of a flagged group is flagged, whatever the order of
    the lines and whatever else it holds; and a file one of whose groups
    is flagged stays flagged when groups are added or reordered. *)
Theorem autogen_flag_is_monotone (g g' : CommentGroup) (f f' : File) :
  (∀ c, c ∈ List g → c ∈ List g') →
  (∀ h, h ∈ Comments f → h ∈ Comments f') →
  (isAutogenComment g = true → isAutogenComment g' = true) ∧
  (isAutogenFile f = true → isAutogenFile f' = true).
Proof.
  intros Hlines Hgroups. split.
  - rewrite !isAutogenComment_spec.
    intros [(c1 & Hc1 & Hg1) (c2 & Hc2 & Hg2)].
    split; [exists c1 | exists c2]; split; auto.
  - unfold isAutogenFile. rewrite !isAutogenFile_loop_spec.
    intros (h & Hh & Hflag). exists h. split; auto.
Qed.

(** The detector over the comment groups of two files put together says
    what it says of one or of the other. *)
Theorem isAutogenFile_app (f f1 f2 : File) :
  Comments f = Comments f1 ++ Comments f2 →
  isAutogenFile f = isAutogenFile f1 || isAutogenFile f2.
Proof.
  unfold isAutogenFile. intros ->.
  induction (Comments f1) as [|g rest IH]; simpl; [done |].
  by destruct (isAutogenComment g).
Qed.

(** Where a match and [nodeText] meet: for a hit whose node is not an
    empty slice and ends before the end of the data, the text recorded
    without line expansion is what [nodeText] returns for the node. *)
Theorem nodeText_agrees_with_match_text (w : worker.t)
    (d : gogrep.MatchData) (m : Match.t) :
  worker.needMatchLine w = false →
  IsEmptyNodeSlice (gogrep.md_Node d) = false →
  materialize w d = Ok m →
  Match.endOffset m < len (worker.data w) →
  ∃ bs, nodeText w (gogrep.md_Node d) = Ok bs ∧
        Match.text m = string_of_list_byte bs.
Proof.
  intros Hline Hne Hmat Hend.
  destruct (materialize_plain _ _ _ Hline Hmat) as (bs & Hbs & Htext & _).
  destruct (materialize_offsets _ _ _ Hmat) as (Hs & He & _).
  exists bs. split; [| done].
  pose proof Hbs as (Hr1 & Hr2 & _)%slice_inv.
  rewrite Hs, He in *. unfold nodeText. rewrite Hne.
  match goal with
  | |- (if ?c then _ else _) = _ => assert (c = true) as ->
  end; [| done].
  repeat (apply andb_true_intro; split);
    first [apply Z.leb_le | apply Z.ltb_lt]; lia.
Qed.

(** When [nodeText] panics.  It does so in two cases only: both offsets
    of the node fall inside the data and the end offset is before the
    start offset, so that the slice expression fails; or the node is not
    a comment, an offset falls outside, and the printer fails, its error
    being the panic value. *)
Theorem nodeText_panics_only_if (w : worker.t) (n : Node) (msg : string) :
  nodeText w n = Panic msg →
  let from := Offset (FileSet_Position (worker.fset w) (Node_Pos n)) in
  let to := Offset (FileSet_Position (worker.fset w) (Node_End n)) in
  let src := worker.data w in
  IsEmptyNodeSlice n = false ∧
  ((0 ≤ to < from ∧ from < len src) ∨
   ((∀ c, n ≠ CommentNode c) ∧
    ¬ ((0 ≤ from < len src) ∧ (0 ≤ to < len src)) ∧
    printer_Fprint (worker.fset w) n = inr msg)).
Proof.
  unfold nodeText. cbv zeta.
  destruct (IsEmptyNodeSlice n); [done |].
  set (from := Offset (FileSet_Position (worker.fset w) (Node_Pos n))).
  set (to := Offset (FileSet_Position (worker.fset w) (Node_End n))).
  destruct (Z.leb_spec 0 from), (Z.ltb_spec from (len (worker.data w))),
    (Z.leb_spec 0 to), (Z.ltb_spec to (len (worker.data w))); simpl.
  1: { intros Hs. split; [done |]. left.
       unfold slice in Hs.
       destruct (Z.leb_spec 0 from), (Z.leb_spec from to),
         (Z.leb_spec to (len (worker.data w))); simpl in Hs;
         try done; lia. }
  all: intros Hp; split; [done |]; right;
    destruct n as [|c|p e children]; try done;
    (split; [done |]); (split; [lia |]);
    by destruct (printer_Fprint _ _) as [buf|err]; [| injection Hp as ->].
Qed.
End DetectorAndText.

(** ** The further properties at concrete inputs *)

Section MoreWitnesses.
Import Demo.

Lemma demo_autogen_unset count capture line e pat root :
  ¬ autogenCondSkips (mkWorker count capture line None plain e pat) root.
Proof. intros [Hcond _]. by apply Hcond. Defined.

(** The addition of "add.go" at offsets 18..23, shown in its line. *)
Lemma matched_range_recovers_match_witness :
  ∃ m',
    initMatchText (scanning false false true) blankMatch 18 23 = Ok m' ∧
    Match.text m' = "var x = 1 + 2"%string ∧
    ∃ bs,
      slice (worker.data (scanning false false true)) 18 23 = Ok bs ∧
      slice (list_byte_of_string (Match.text m'))
        (Match.matchStartOffset m')
        (Match.matchStartOffset m' + Match.matchLength m') = Ok bs.
Proof.
  eexists. split; [vm_compute; reflexivity |]. split; [reflexivity |].
  eapply (matched_range_recovers_match (scanning false false true)
            blankMatch 18 23); [lia | vm_compute; reflexivity].
Defined.

Lemma initMatchText_returns_iff_witness :
  validRange (len (worker.data (scanning false false true))) 18 23 ∧
  (is_Ok (initMatchText (scanning false false true) blankMatch 18 23) ↔
   (worker.needMatchLine (scanning false false true) = false ∨ 18 = 0 ∨
    18 < len (worker.data (scanning false false true)))).
Proof.
  assert (Hvalid :
    validRange (len (worker.data (scanning false false true))) 18 23).
  { unfold validRange.
    change (len (worker.data (scanning false false true))) with 24. lia. }
  split; [exact Hvalid |].
  exact (initMatchText_returns_iff (scanning false false true) blankMatch
           18 23 Hvalid).
Defined.

Lemma expanded_line_shape_witness :
  ∃ m',
    worker.needMatchLine (scanning false false true) = true ∧
    initMatchText (scanning false false true) blankMatch 18 23 = Ok m' ∧
    let data := worker.data (scanning false false true) in
    let start := 18 - Match.matchStartOffset m' in
    let end_ := start + Z.of_nat (String.length (Match.text m')) in
    0 ≤ start ≤ 18 ∧ 23 ≤ end_ ≤ len data ∧
    (∀ i, start ≤ i < 18 → newlineAt data i → i = 0) ∧
    (∀ i, 23 ≤ i < end_ → ¬ newlineAt data i) ∧
    (start = 0 ∨ newlineAt data (start - 1) ∨
     (start = 18 ∧ newlineAt data 18)) ∧
    (end_ = len data ∨ newlineAt data end_).
Proof.
  eexists. split; [reflexivity |]. split; [vm_compute; reflexivity |].
  eapply (expanded_line_shape (scanning false false true) blankMatch 18 23);
    [reflexivity | vm_compute; reflexivity].
Defined.

Lemma line_expansion_idempotent_witness :
  initMatchText (scanning false false true) blankMatch 18 23 =
  Ok (setMatchText blankMatch "var x = 1 + 2" 8 5) ∧
  initMatchText (scanning false false true) blankMatch 10 23 =
  Ok (setMatchText blankMatch "var x = 1 + 2" 0 13).
Proof.
  assert (Hrun :
    initMatchText (scanning false false true) blankMatch 18 23 =
    Ok (setMatchText blankMatch "var x = 1 + 2" 8 5))
    by (vm_compute; reflexivity).
  split; [exact Hrun |].
  exact (line_expansion_idempotent (scanning false false true) blankMatch
           18 23 _ eq_refl Hrun).
Defined.

(** "add.go" scanned for every node with a width filter: four of the
    seven hits are accepted and four matches appended, in walk order; the
    evaluator is called seven times. *)
Lemma matches_follow_walk_order_witness :
  ∃ w' T' acc new,
    grepFile (mkWorker false true true None plain (DemoMinWidth, 2) anyNode)
      world "add.go" = Ok (w', T', (4, None)) ∧
    sublist acc (hitsAlong anyNode O (preorder (File_node treeAdd))) ∧
    4 = len acc ∧
    worker.matches w' = [] ++ new ∧
    Forall2 (fun d m =>
               materialize
                 (scanStart
                    (mkWorker false true true None plain (DemoMinWidth, 2)
                       anyNode)
                    "add.go" (bytes srcAdd) treeAdd) d = Ok m)
      acc new.
Proof.
  assert (Hrun : ∃ w' T',
    grepFile (mkWorker false true true None plain (DemoMinWidth, 2) anyNode)
      world "add.go" = Ok (w', T', (4, None)))
    by (eexists _, _; vm_compute; reflexivity).
  destruct Hrun as (w' & T' & Hrun).
  assert (Hdisk : disk world "add.go" = inl (bytes srcAdd)) by reflexivity.
  assert (Hparse :
    parser_parse "add.go" (bytes srcAdd)
      (needComments
         (mkWorker false true true None plain (DemoMinWidth, 2) anyNode))
    = inl treeAdd) by reflexivity.
  destruct (matches_follow_walk_order
              (mkWorker false true true None plain (DemoMinWidth, 2) anyNode)
              world "add.go" (bytes srcAdd) treeAdd w' T' 4 None
              (demo_plain_not_skipped _ _ _ _ _ _) Hdisk Hparse
              (demo_autogen_unset _ _ _ _ _ _) Hrun)
    as (acc & new & Hsub & Hcnt & Hm & Hnew & _).
  exists w', T', acc, new.
  split; [exact Hrun |]. split; [exact Hsub |]. split; [exact Hcnt |].
  split; [exact Hm | exact Hnew].
Defined.

Lemma filter_called_once_per_hit_witness :
  ∃ w' T' r,
    grepFile (mkWorker false true true None plain (DemoMinWidth, 2) anyNode)
      world "add.go" = Ok (w', T', r) ∧
    filterCalls T' = 7%nat.
Proof.
  assert (Hrun : ∃ w' T' r,
    grepFile (mkWorker false true true None plain (DemoMinWidth, 2) anyNode)
      world "add.go" = Ok (w', T', r))
    by (eexists _, _, _; vm_compute; reflexivity).
  destruct Hrun as (w' & T' & r & Hrun).
  assert (Hdisk : disk world "add.go" = inl (bytes srcAdd)) by reflexivity.
  assert (Hparse :
    parser_parse "add.go" (bytes srcAdd)
      (needComments
         (mkWorker false true true None plain (DemoMinWidth, 2) anyNode))
    = inl treeAdd) by reflexivity.
  pose proof (filter_called_once_per_hit
                (mkWorker false true true None plain (DemoMinWidth, 2) anyNode)
                world "add.go" (bytes srcAdd) treeAdd w' T' r
                (demo_plain_not_skipped _ _ _ _ _ _) Hdisk Hparse
                (demo_autogen_unset _ _ _ _ _ _) Hrun) as Hcalls.
  exists w', T', r. split; [exact Hrun |].
  rewrite Hcalls. reflexivity.
Defined.

Lemma grepFile_keeps_configuration_witness :
  ∃ w' T' r,
    grepFile (mkWorker false true true None plain nop isBinary)
      world "add.go" = Ok (w', T', r) ∧
    worker.errors w' = [] ∧ worker.workDir w' = "/src"%string ∧
    disk T' = disk world.
Proof.
  assert (Hrun : ∃ w' T' r,
    grepFile (mkWorker false true true None plain nop isBinary)
      world "add.go" = Ok (w', T', r))
    by (eexists _, _, _; vm_compute; reflexivity).
  destruct Hrun as (w' & T' & r & Hrun).
  destruct (grepFile_keeps_configuration _ _ _ _ _ _ Hrun)
    as (_ & _ & _ & _ & Hwd & _ & _ & _ & _ & _ & _ & Herr & _ & Hdisk & _).
  exists w', T', r. split; [exact Hrun |]. split; [exact Herr |].
  split; [exact Hwd | exact Hdisk].
Defined.

Lemma scan_replaces_scratch_fields_witness :
  ∃ w' T' cnt err,
    grepFile (mkWorker false true true None plain nop isBinary)
      world "add.go" = Ok (w', T', (cnt, err)) ∧
    worker.data w' = bytes srcAdd ∧
    worker.fset w' = fsetOf "add.go" (bytes srcAdd) ∧
    worker.filename w' = "add.go"%string ∧
    worker.pkgName w' = Name treeAdd ∧
    cnt = worker.n w' ∧ err = None.
Proof.
  assert (Hrun : ∃ w' T' cnt err,
    grepFile (mkWorker false true true None plain nop isBinary)
      world "add.go" = Ok (w', T', (cnt, err)))
    by (eexists _, _, _, _; vm_compute; reflexivity).
  destruct Hrun as (w' & T' & cnt & err & Hrun).
  assert (Hdisk : disk world "add.go" = inl (bytes srcAdd)) by reflexivity.
  assert (Hparse :
    parser_parse "add.go" (bytes srcAdd)
      (needComments (mkWorker false true true None plain nop isBinary))
    = inl treeAdd) by reflexivity.
  exists w', T', cnt, err. split; [exact Hrun |].
  exact (scan_replaces_scratch_fields
           (mkWorker false true true None plain nop isBinary)
           world "add.go" (bytes srcAdd) treeAdd w' T' cnt err
           (demo_plain_not_skipped _ _ _ _ _ _) Hdisk Hparse
           (demo_autogen_unset _ _ _ _ _ _) Hrun).
Defined.

(** Counting the hits of "lead.go" under line expansion. *)
Lemma count_mode_never_panics_witness :
  is_Ok (grepFile (mkWorker true false true None plain nop anyNode)
           world "lead.go").
Proof.
  exact (count_mode_never_panics
           (mkWorker true false true None plain nop anyNode)
           world "lead.go" eq_refl).
Defined.

Lemma appended_matches_name_the_file_witness :
  ∃ w' T' r new,
    grepFile (mkWorker false true false None plain nop isBinary)
      world "add.go" = Ok (w', T', r) ∧
    worker.matches w' = [] ++ new ∧
    Forall (fun m => Match.filename m = "add.go"%string) new.
Proof.
  assert (Hrun : ∃ w' T' r,
    grepFile (mkWorker false true false None plain nop isBinary)
      world "add.go" = Ok (w', T', r))
    by (eexists _, _, _; vm_compute; reflexivity).
  destruct Hrun as (w' & T' & r & Hrun).
  destruct (appended_matches_name_the_file _ _ _ _ _ _ Hrun)
    as (new & Hnew & Hall).
  exists w', T', r, new. split; [exact Hrun |]. split; [exact Hnew |].
  eapply Forall_impl; [exact Hall |]. intros m (Hfn & _). exact Hfn.
Defined.

Lemma recorded_offsets_lie_in_file_witness :
  ∃ w' T' r new,
    disk world "add.go" = inl (bytes srcAdd) ∧
    grepFile (mkWorker false true true None plain nop anyNode)
      world "add.go" = Ok (w', T', r) ∧
    worker.matches w' = [] ++ new ∧
    Forall (offsetsInFile (len (bytes srcAdd))) new.
Proof.
  assert (Hrun : ∃ w' T' r,
    grepFile (mkWorker false true true None plain nop anyNode)
      world "add.go" = Ok (w', T', r))
    by (eexists _, _, _; vm_compute; reflexivity).
  destruct Hrun as (w' & T' & r & Hrun).
  assert (Hdisk : disk world "add.go" = inl (bytes srcAdd)) by reflexivity.
  destruct (recorded_offsets_lie_in_file _ _ _ (bytes srcAdd) _ _ _
              Hdisk Hrun) as (new & Hnew & Hall).
  exists w', T', r, new.
  split; [exact Hdisk |]. split; [exact Hrun |].
  split; [exact Hnew | exact Hall].
Defined.

(** A marker on two lines, and the same lines the other way round with
    one more between them. *)
Lemma autogen_flag_is_monotone_witness :
  isAutogenComment
    {| List := [ {| Slash := 1; Text := "// don't edit" |};
                 {| Slash := 15; Text := "// license" |};
                 {| Slash := 26; Text := "// generated by x" |} ] |} = true.
Proof.
  refine (proj1 (autogen_flag_is_monotone
    {| List := [ {| Slash := 26; Text := "// generated by x" |};
                 {| Slash := 1; Text := "// don't edit" |} ] |}
    _
    (treeGen true) (treeGen true) _ (fun h Hh => Hh)) eq_refl).
  intros c Hc. simpl in *.
  apply elem_of_cons in Hc as [-> | Hc]; [by repeat constructor |].
  apply list_elem_of_singleton in Hc as ->. by repeat constructor.
Defined.

Lemma isAutogenFile_app_witness :
  isAutogenFile
    {| Package := 45; Name := "p"; Decls := []; FileEnd := 55;
       Comments := Comments (treeGen false) ++ Comments (treeGen true) |}
  = isAutogenFile (treeGen false) || isAutogenFile (treeGen true).
Proof.
  exact (isAutogenFile_app _ (treeGen false) (treeGen true) eq_refl).
Defined.

Lemma nodeText_agrees_with_match_text_witness :
  ∃ m bs,
    materialize (scanning false false false) addHit = Ok m ∧
    nodeText (scanning false false false) (gogrep.md_Node addHit) = Ok bs ∧
    Match.text m = string_of_list_byte bs ∧
    Match.text m = "1 + 2"%string.
Proof.
  assert (Hm : ∃ m, materialize (scanning false false false) addHit = Ok m)
    by (eexists; vm_compute; reflexivity).
  destruct Hm as (m & Hm).
  assert (Hend : Match.endOffset m < len (worker.data
                   (scanning false false false))).
  { vm_compute in Hm. injection Hm as <-. reflexivity. }
  destruct (nodeText_agrees_with_match_text (scanning false false false)
              addHit m eq_refl eq_refl Hm Hend) as (bs & Hbs & Htext).
  exists m, bs. split; [exact Hm |]. split; [exact Hbs |].
  split; [exact Htext |].
  vm_compute in Hm. injection Hm as <-. reflexivity.
Defined.

(** A node that ends before it starts, outside the (empty) data of a
    fresh worker: the printer of the concrete environment refuses it. *)
Lemma nodeText_panics_only_if_witness :
  nodeText (mkWorker false true true None plain nop anyNode)
    (SyntaxNode 5 3 []) = Panic "printer: bad node" ∧
  printer_Fprint
    (worker.fset (mkWorker false true true None plain nop anyNode))
    (SyntaxNode 5 3 []) = inr "printer: bad node"%string.
Proof.
  assert (Hp : nodeText (mkWorker false true true None plain nop anyNode)
                 (SyntaxNode 5 3 []) = Panic "printer: bad node")
    by reflexivity.
  split; [exact Hp |].
  destruct (nodeText_panics_only_if _ _ _ Hp) as [_ [Hrev | (_ & _ & Hpr)]].
  - exfalso. vm_compute in Hrev. destruct Hrev as [[_ Hlt] _].
    discriminate Hlt.
  - exact Hpr.
Defined.

Lemma empty_heatmap_set_skips_every_file_witness :
  grepFile (mkWorker false true true (Some ∅) plain nop anyNode)
    world "add.go"
  = Ok (mkWorker false true true (Some ∅) plain nop anyNode, world, (0, None)).
Proof.
  exact (empty_heatmap_set_skips_every_file
           (mkWorker false true true (Some ∅) plain nop anyNode)
           world "add.go" eq_refl).
Defined.

(** "dir/add_test.go" scanned by a worker that asks for test files and
    has its base name in the heat map set. *)
Lemma report_implies_all_gates_passed_witness :
  ∃ w' T',
    grepFile
      (mkWorker true false false (Some {["add_test.go"%string]})
         (hints bool3true bool3unset) nop anyNode)
      world "dir/add_test.go" = Ok (w', T', (7, None)) ∧
    isTestFile "dir/add_test.go" = true ∧
    filepath_Base "dir/add_test.go" ∈ ({["add_test.go"%string]} : gset string).
Proof.
  assert (Hrun : ∃ w' T',
    grepFile
      (mkWorker true false false (Some {["add_test.go"%string]})
         (hints bool3true bool3unset) nop anyNode)
      world "dir/add_test.go" = Ok (w', T', (7, None)))
    by (eexists _, _; vm_compute; reflexivity).
  destruct Hrun as (w' & T' & Hrun).
  destruct (report_implies_all_gates_passed _ _ _ _ _ _ _ Hrun)
    as (Hheat & Htest & _); [left; lia |].
  exists w', T'. split; [exact Hrun |]. split.
  - destruct Htest as [Hu | Ht]; [vm_compute in Hu; discriminate Hu |].
    destruct (isTestFile "dir/add_test.go");
      [reflexivity | vm_compute in Ht; discriminate Ht].
  - apply Hheat. reflexivity.
Defined.

Lemma error_means_no_matches_witness :
  ∃ w' T' cnt e,
    grepFile (mkWorker false true true None plain nop anyNode)
      world "bad.go" = Ok (w', T', (cnt, Some e)) ∧
    cnt = 0 ∧ worker.matches w' = [] ∧
    parser_parse "bad.go" (bytes srcBad)
      (needComments (mkWorker false true true None plain nop anyNode))
    = inr e.
Proof.
  assert (Hrun : ∃ w' T' cnt e,
    grepFile (mkWorker false true true None plain nop anyNode)
      world "bad.go" = Ok (w', T', (cnt, Some e)))
    by (eexists _, _, _, _; vm_compute; reflexivity).
  destruct Hrun as (w' & T' & cnt & e & Hrun).
  destruct (error_means_no_matches _ _ _ _ _ _ _ Hrun)
    as (Hcnt & Hm & [(oserr & Hd & _) | (data & Hd & Hp)]).
  - discriminate Hd.
  - injection Hd as <-. exists w', T', cnt, e.
    split; [exact Hrun |]. split; [exact Hcnt |].
    split; [exact Hm | exact Hp].
Defined.
End MoreWitnesses.
